(** * AI Prompt Tool (src/App.js): a shallow embedding and its properties

    The embedding follows [src/src/App.js]: the string primitives the
    component calls ([trim], [toLowerCase], [includes], [join]), the template
    objects, the component state held by [useState], the derived values
    ([assembled], [filtered], [allTags]) and the event handlers
    ([saveTemplate], [applyTemplate], [deleteTemplate], [importTemplates],
    [exportTemplates]), and the JSON text format the two storage boundaries
    go through.  The handlers work on templates; [Raw] evaluates the library
    view on a stored array whose elements are any parsed values.

    Strings are sequences of code units; the model covers the code units
    below 256, one [ascii] each. *)

From Stdlib Require Import Ascii String NArith DecimalString DecimalPos DecimalN.
From stdpp Require Import base list strings option sorting gmap.

Local Open Scope N_scope.
Set Warnings "-register-all".

(** ** String primitives of the platform *)

Module JS.

Definition code (c : ascii) : N := N_of_ascii c.

(** White space and line terminators, as [String.prototype.trim] strips
    them: TAB, LF, VT, FF, CR, SP and NBSP are the ones below 256. *)
Definition isWhiteSpace (c : ascii) : bool :=
  match code c with
  | 9 | 10 | 11 | 12 | 13 | 32 | 160 => true
  | _ => false
  end.

Fixpoint trimStart (s : string) : string :=
  match s with
  | String c s' => if isWhiteSpace c then trimStart s' else s
  | EmptyString => EmptyString
  end.

Fixpoint trimEnd (s : string) : string :=
  match s with
  | EmptyString => EmptyString
  | String c s' =>
      match trimEnd s' with
      | EmptyString => if isWhiteSpace c then EmptyString else String c EmptyString
      | r => String c r
      end
  end.

Definition trim (s : string) : string := trimEnd (trimStart s).

(** [toLowerCase] on one code unit: A-Z, and the Latin-1 capitals
    U+00C0..U+00DE without the multiplication sign U+00D7. *)
Definition lowerChar (c : ascii) : ascii :=
  let n := code c in
  if ((65 <=? n) && (n <=? 90)) || ((192 <=? n) && (n <=? 222) && negb (n =? 215))
  then ascii_of_N (n + 32)
  else c.

Fixpoint toLowerCase (s : string) : string :=
  match s with
  | EmptyString => EmptyString
  | String c s' => String (lowerChar c) (toLowerCase s')
  end.

(** [s.includes(q)]: [q] occurs in [s] at some position. *)
Fixpoint includes (s q : string) : bool :=
  if String.prefix q s then true
  else match s with
       | EmptyString => false
       | String _ s' => includes s' q
       end.

(** [xs.join(sep)] on an array of strings. *)
Definition join (sep : string) (xs : list string) : string := String.concat sep xs.

(** Truthiness of a string: every string but the empty one. *)
Definition truthy (s : string) : bool :=
  match s with
  | EmptyString => false
  | String _ _ => true
  end.

(** [x || d] where [x] is a string or [undefined]. *)
Definition orString (x : option string) (d : string) : string :=
  match x with
  | Some s => if truthy s then s else d
  | None => d
  end.

(** [x || []] where [x] is an array or [undefined]: an array is truthy. *)
Definition orEmpty {A} (x : option (list A)) : list A :=
  match x with
  | Some l => l
  | None => []
  end.

(** An element of an array under [join]: [undefined] prints as nothing. *)
Definition joinElement (x : option string) : string :=
  match x with
  | Some s => s
  | None => EmptyString
  end.

(** [`${n}`] for a non-negative integer. *)
Definition numberToString (n : N) : string := NilEmpty.string_of_uint (N.to_uint n).

(** [new Set(xs)] then [Array.from]: first occurrences, in insertion order. *)
Fixpoint uniq (seen xs : list string) : list string :=
  match xs with
  | [] => []
  | x :: xs' =>
      if bool_decide (x ∈ seen) then uniq seen xs' else x :: uniq (x :: seen) xs'
  end.

(** [xs.sort()] with the default comparison: code unit order. *)
Definition sort (xs : list string) : list string := merge_sort String.le xs.

Definition LF : string := String "010"%char EmptyString.

End JS.

(** ** JSON values and the JSON text format

    [JSON.parse] and [JSON.stringify] are functions of the platform.  They
    are written here after ECMA-262 (the JSON grammar, QuoteJSONString,
    SerializeJSONArray and SerializeJSONObject), on strings of code units
    below 256: an escape [\uXXXX] above that is refused, and the array
    index keys of an object stay where they were written. *)

(** What a handler gets from a [try] block: the value, or the message of
    the error that was thrown. *)
Inductive result (A : Type) : Type :=
| Ok (a : A)
| Throw (message : string).
Arguments Ok {A} a.
Arguments Throw {A} message.

(** A value [JSON.parse] returns.  A number is kept as its literal: the
    component never computes with one.  The members of an object are in
    insertion order (the order [JSON.stringify] lists string keys in). *)
Inductive json : Type :=
| JNull
| JBool (b : bool)
| JNum (literal : string)
| JStr (s : string)
| JArr (elements : list json)
| JObj (members : list (string * json)).

Module JSON.

Definition DQ : ascii := "034"%char.
Definition BSL : ascii := "092"%char.

Definition hexDigit (n : N) : ascii :=
  if n <? 10 then ascii_of_N (48 + n) else ascii_of_N (87 + n).

(** QuoteJSONString, one code unit at a time. *)
Definition escapeChar (c : ascii) : string :=
  match JS.code c with
  | 8 => "\b"
  | 9 => "\t"
  | 10 => "\n"
  | 12 => "\f"
  | 13 => "\r"
  | 34 => String BSL (String DQ EmptyString)
  | 92 => "\\"
  | n =>
      if n <? 32
      then "\u00" +:+ String (hexDigit (n / 16)) (String (hexDigit (n mod 16)) EmptyString)
      else String c EmptyString
  end.

Fixpoint escape (s : string) : string :=
  match s with
  | EmptyString => EmptyString
  | String c s' => escapeChar c +:+ escape s'
  end.

Definition quote (s : string) : string :=
  String DQ (escape s +:+ String DQ EmptyString).

(** SerializeJSONProperty with the gap of two spaces; [indent] is the
    current indentation. *)
Fixpoint serialize (indent : string) (v : json) : string :=
  match v with
  | JNull => "null"
  | JBool true => "true"
  | JBool false => "false"
  | JNum literal => literal
  | JStr s => quote s
  | JArr [] => "[]"
  | JArr xs =>
      let stepback := indent in
      let indent := indent +:+ "  " in
      let separator := "," +:+ JS.LF +:+ indent in
      "[" +:+ JS.LF +:+ indent
          +:+ JS.join separator (map (serialize indent) xs)
          +:+ JS.LF +:+ stepback +:+ "]"
  | JObj [] => "{}"
  | JObj ms =>
      let stepback := indent in
      let indent := indent +:+ "  " in
      let separator := "," +:+ JS.LF +:+ indent in
      "{" +:+ JS.LF +:+ indent
          +:+ JS.join separator
                (map (fun m => quote (fst m) +:+ ": " +:+ serialize indent (snd m)) ms)
          +:+ JS.LF +:+ stepback +:+ "}"
  end.

(** [JSON.stringify(value, null, 2)]. *)
Definition stringify2 (v : json) : string := serialize "" v.

(** JSON white space: TAB, LF, CR and SP. *)
Definition isWs (c : ascii) : bool :=
  match JS.code c with
  | 9 | 10 | 13 | 32 => true
  | _ => false
  end.

Fixpoint skipWs (s : string) : string :=
  match s with
  | String c s' => if isWs c then skipWs s' else s
  | EmptyString => EmptyString
  end.

Definition isDigit (c : ascii) : bool := (48 <=? JS.code c) && (JS.code c <=? 57).

Definition hexVal (c : ascii) : option N :=
  let n := JS.code c in
  if (48 <=? n) && (n <=? 57) then Some (n - 48)
  else if (97 <=? n) && (n <=? 102) then Some (n - 87)
  else if (65 <=? n) && (n <=? 70) then Some (n - 55)
  else None.

Definition hex4 (a b c d : ascii) : option N :=
  match hexVal a, hexVal b, hexVal c, hexVal d with
  | Some x, Some y, Some z, Some w => Some (((x * 16 + y) * 16 + z) * 16 + w)
  | _, _, _, _ => None
  end.

(** The character a two-character escape stands for. *)
Definition unescape (e : ascii) : option ascii :=
  match JS.code e with
  | 34 => Some DQ
  | 92 => Some BSL
  | 47 => Some "/"%char
  | 98 => Some "008"%char
  | 102 => Some "012"%char
  | 110 => Some "010"%char
  | 114 => Some "013"%char
  | 116 => Some "009"%char
  | _ => None
  end.

Definition consChar (c : ascii) (r : result (string * string)) : result (string * string) :=
  match r with
  | Ok (str, rest) => Ok (String c str, rest)
  | Throw m => Throw m
  end.

(** The characters of a string literal after its opening quote, up to and
    with the closing quote: the string and the text that follows. *)
Fixpoint parseChars (s : string) : result (string * string) :=
  match s with
  | EmptyString => Throw "Unterminated string in JSON"
  | String c s1 =>
      if JS.code c =? 34 then Ok (EmptyString, s1)
      else if JS.code c =? 92 then
        match s1 with
        | EmptyString => Throw "Unterminated string in JSON"
        | String e s2 =>
            match unescape e with
            | Some d => consChar d (parseChars s2)
            | None =>
                if JS.code e =? 117 then
                  match s2 with
                  | String h1 (String h2 (String h3 (String h4 s3))) =>
                      match hex4 h1 h2 h3 h4 with
                      | Some n =>
                          if n <? 256 then consChar (ascii_of_N n) (parseChars s3)
                          else Throw "Code unit above 255"
                      | None => Throw "Bad Unicode escape in JSON"
                      end
                  | _ => Throw "Bad Unicode escape in JSON"
                  end
                else Throw "Bad escaped character in JSON"
            end
        end
      else if JS.code c <? 32 then Throw "Bad control character in string literal in JSON"
      else consChar c (parseChars s1)
  end.

Fixpoint spanDigits (s : string) : string * string :=
  match s with
  | String c s' =>
      if isDigit c then let '(d, r) := spanDigits s' in (String c d, r)
      else (EmptyString, s)
  | EmptyString => (EmptyString, EmptyString)
  end.

(** A number literal: minus sign, integer part, fraction, exponent. *)
Definition parseNumber (s : string) : result (string * string) :=
  let '(sign, s1) :=
    match s with
    | String c s' => if JS.code c =? 45 then ("-", s') else ("", s)
    | EmptyString => ("", s)
    end in
  match s1 with
  | EmptyString => Throw "No number after minus sign in JSON"
  | String c s2 =>
      if negb (isDigit c) then Throw "No number after minus sign in JSON"
      else
        let '(int, s3) :=
          if JS.code c =? 48 then (String c EmptyString, s2)
          else let '(d, r) := spanDigits s2 in (String c d, r) in
        let frac :=
          match s3 with
          | String p s4 =>
              if JS.code p =? 46 then
                match spanDigits s4 with
                | (EmptyString, _) => Throw "Unterminated fractional number in JSON"
                | (d, r) => Ok (String p d, r)
                end
              else Ok (EmptyString, s3)
          | EmptyString => Ok (EmptyString, s3)
          end in
        match frac with
        | Throw m => Throw m
        | Ok (fr, s5) =>
            let exp :=
              match s5 with
              | String e s6 =>
                  if (JS.code e =? 101) || (JS.code e =? 69) then
                    let '(esign, s7) :=
                      match s6 with
                      | String g s' =>
                          if (JS.code g =? 43) || (JS.code g =? 45)
                          then (String g EmptyString, s') else ("", s6)
                      | EmptyString => ("", s6)
                      end in
                    match spanDigits s7 with
                    | (EmptyString, _) => Throw "Exponent part is missing a number in JSON"
                    | (d, r) => Ok (String e (esign +:+ d), r)
                    end
                  else Ok (EmptyString, s5)
              | EmptyString => Ok (EmptyString, s5)
              end in
            match exp with
            | Throw m => Throw m
            | Ok (ex, s8) => Ok (sign +:+ int +:+ fr +:+ ex, s8)
            end
        end
  end.

(** [s] without the prefix [word], when it starts with it. *)
Fixpoint stripPrefix (word s : string) : option string :=
  match word with
  | EmptyString => Some s
  | String a word' =>
      match s with
      | String b s' => if Ascii.eqb a b then stripPrefix word' s' else None
      | EmptyString => None
      end
  end.

(** The rest of a literal name such as [null] after its first letter. *)
Definition expect (word : string) (v : json) (s : string) : result (json * string) :=
  match stripPrefix word s with
  | Some rest => Ok (v, rest)
  | None => Throw "Unexpected token in JSON"
  end.

(** Defining a property: a key that is there keeps its place and takes the
    new value, a new key goes last. *)
Fixpoint setMember (k : string) (v : json) (ms : list (string * json))
  : list (string * json) :=
  match ms with
  | [] => [(k, v)]
  | (k', v') :: ms' =>
      if String.eqb k k' then (k, v) :: ms' else (k', v') :: setMember k v ms'
  end.

Definition buildObject (ms : list (string * json)) : json :=
  JObj (fold_left (fun acc m => setMember (fst m) (snd m) acc) ms []).

(** Recursive descent over the text; [fuel] bounds the nesting of calls. *)
Fixpoint parseValue (fuel : nat) (s : string) : result (json * string) :=
  match fuel with
  | O => Throw "Out of fuel"
  | S fuel' =>
      match skipWs s with
      | EmptyString => Throw "Unexpected end of JSON input"
      | String c rest =>
          match JS.code c with
          | 110 => expect "ull" JNull rest
          | 116 => expect "rue" (JBool true) rest
          | 102 => expect "alse" (JBool false) rest
          | 34 =>
              match parseChars rest with
              | Ok (str, r) => Ok (JStr str, r)
              | Throw m => Throw m
              end
          | 91 =>
              match skipWs rest with
              | String c2 r2 =>
                  if JS.code c2 =? 93 then Ok (JArr [], r2)
                  else
                    match parseElements fuel' rest with
                    | Ok (xs, r) => Ok (JArr xs, r)
                    | Throw m => Throw m
                    end
              | EmptyString => Throw "Unexpected end of JSON input"
              end
          | 123 =>
              match skipWs rest with
              | String c2 r2 =>
                  if JS.code c2 =? 125 then Ok (JObj [], r2)
                  else
                    match parseMembers fuel' rest with
                    | Ok (ms, r) => Ok (buildObject ms, r)
                    | Throw m => Throw m
                    end
              | EmptyString => Throw "Unexpected end of JSON input"
              end
          | n =>
              if (n =? 45) || isDigit c then
                match parseNumber (String c rest) with
                | Ok (literal, r) => Ok (JNum literal, r)
                | Throw m => Throw m
                end
              else Throw "Unexpected token in JSON"
          end
      end
  end
with parseElements (fuel : nat) (s : string) : result (list json * string) :=
  match fuel with
  | O => Throw "Out of fuel"
  | S fuel' =>
      match parseValue fuel' s with
      | Throw m => Throw m
      | Ok (v, r) =>
          match skipWs r with
          | String c r' =>
              if JS.code c =? 44 then
                match parseElements fuel' r' with
                | Ok (vs, r'') => Ok (v :: vs, r'')
                | Throw m => Throw m
                end
              else if JS.code c =? 93 then Ok ([v], r')
              else Throw "Expected a comma or the end of the array in JSON"
          | EmptyString => Throw "Unexpected end of JSON input"
          end
      end
  end
with parseMembers (fuel : nat) (s : string) : result (list (string * json) * string) :=
  match fuel with
  | O => Throw "Out of fuel"
  | S fuel' =>
      match skipWs s with
      | EmptyString => Throw "Unexpected end of JSON input"
      | String q r0 =>
          if negb (JS.code q =? 34) then Throw "Expected a property name in JSON"
          else
            match parseChars r0 with
            | Throw m => Throw m
            | Ok (k, r1) =>
                match skipWs r1 with
                | EmptyString => Throw "Unexpected end of JSON input"
                | String colon r2 =>
                    if negb (JS.code colon =? 58)
                    then Throw "Expected a colon after the property name in JSON"
                    else
                      match parseValue fuel' r2 with
                      | Throw m => Throw m
                      | Ok (v, r3) =>
                          match skipWs r3 with
                          | String c r4 =>
                              if JS.code c =? 44 then
                                match parseMembers fuel' r4 with
                                | Ok (ms, r5) => Ok ((k, v) :: ms, r5)
                                | Throw m => Throw m
                                end
                              else if JS.code c =? 125 then Ok ([(k, v)], r4)
                              else Throw "Expected a comma or the end of the object in JSON"
                          | EmptyString => Throw "Unexpected end of JSON input"
                          end
                      end
                end
            end
      end
  end.

(** [JSON.parse(text)].  Twice the length of the text is fuel enough:
    every call reads a character of its own. *)
Definition parse (text : string) : result json :=
  match parseValue (S (2 * String.length text)) text with
  | Throw m => Throw m
  | Ok (v, rest) =>
      match skipWs rest with
      | EmptyString => Ok v
      | String _ _ => Throw "Unexpected non-whitespace character after JSON"
      end
  end.

End JSON.

(** ** Templates *)

(** A template object.  A property that is absent (reads as [undefined])
    is [None]; [DEFAULT_TEMPLATES] and [saveTemplate] set all eight. *)
Module Template.

Record t : Type := mk {
  id : option string;
  name : option string;
  tags : option (list string);
  context : option string;
  task : option string;
  rules : option (list string);
  format : option string;
  examples : option (list string)
}.

#[global] Instance eq_dec : EqDecision t.
Proof. solve_decision. Defined.

End Template.

(** The object as [JSON.stringify] sees it: the properties that are there,
    in the order of the object literal. *)
Definition member {A} (k : string) (f : A → json) (x : option A) : list (string * json) :=
  match x with
  | Some a => [(k, f a)]
  | None => []
  end.

Definition strings (l : list string) : json := JArr (map JStr l).

Definition toJson (t : Template.t) : json :=
  JObj (member "id" JStr (Template.id t)
        ++ member "name" JStr (Template.name t)
        ++ member "tags" strings (Template.tags t)
        ++ member "context" JStr (Template.context t)
        ++ member "task" JStr (Template.task t)
        ++ member "rules" strings (Template.rules t)
        ++ member "format" JStr (Template.format t)
        ++ member "examples" strings (Template.examples t)).

(** [v.k] on a parsed value: [undefined] when [v] is no object or has no
    such property. *)
Fixpoint assoc (k : string) (ms : list (string * json)) : option json :=
  match ms with
  | [] => None
  | (k', v) :: ms' => if String.eqb k k' then Some v else assoc k ms'
  end.

Definition getProp (v : json) (k : string) : option json :=
  match v with
  | JObj ms => assoc k ms
  | _ => None
  end.

Definition asString (x : option json) : option string :=
  match x with
  | Some (JStr s) => Some s
  | _ => None
  end.

Definition asStrings (x : option json) : option (list string) :=
  match x with
  | Some (JArr xs) => mapM (fun e => asString (Some e)) xs
  | _ => None
  end.

(** A stored element read as a template: the eight properties the
    component reads, each at the type the component uses it at.  The code
    keeps the element itself.  For a template object ([templateObject])
    what the library view reads of the element is what it reads of this
    record ([passes_templateObject], [allTags_templateObjects]) and
    [ofJson] undoes [toJson]; for any other element the library view is
    [Raw]'s, and a property with a value of another type reads as absent
    here. *)
Definition ofJson (v : json) : Template.t :=
  {| Template.id := asString (getProp v "id");
     Template.name := asString (getProp v "name");
     Template.tags := asStrings (getProp v "tags");
     Template.context := asString (getProp v "context");
     Template.task := asString (getProp v "task");
     Template.rules := asStrings (getProp v "rules");
     Template.format := asString (getProp v "format");
     Template.examples := asStrings (getProp v "examples") |}.

Definition DEFAULT_TEMPLATES : list Template.t :=
  [ Template.mk (Some "research-brief") (Some "Research Brief")
      (Some ["research"; "analysis"])
      (Some "You are an expert researcher synthesizing credible sources into concise, actionable insights.")
      (Some "Analyze the topic and produce a structured brief with key findings and implications.")
      (Some ["Cite facts with source names."; "Be concise and neutral."; "Call out uncertainty."])
      (Some "Sections: Summary, Key Findings, Risks/Unknowns, References")
      (Some ["Example: For ETH staking, summarize yield ranges, slashing risks, providers, and regs."]);
    Template.mk (Some "code-review") (Some "Code Review Helper")
      (Some ["coding"; "review"])
      (Some "You are a senior engineer reviewing a PR for correctness and maintainability.")
      (Some "Identify issues, suggest concrete fixes, and note potential refactors.")
      (Some ["Be specific with file/line when possible."; "Prefer minimal, safe edits."; "Explain rationale."])
      (Some "Sections: Summary, Issues, Suggestions, Tests to Add")
      (Some ["Example: Identify unreachable branches and suggest guard clauses."]);
    Template.mk (Some "brainstorm") (Some "Brainstorming")
      (Some ["ideation"; "creative"])
      (Some "You are a creative partner producing unconventional but feasible ideas.")
      (Some "Generate options that vary by complexity, cost, and risk.")
      (Some ["List pros/cons for each idea."; "Include one weird but plausible idea."])
      (Some "Table: Idea, Rationale, Pros, Cons, Next Step")
      (Some ["Example: Growth ideas for a niche DeFi analytics tool."]) ].

(** ** The library view: [allTags] and [filtered] of [TemplateLibrary] *)

Definition allTags (templates : list Template.t) : list string :=
  JS.sort (JS.uniq [] (flat_map (fun t => JS.orEmpty (Template.tags t)) templates)).

(** The array that [filtered] joins with single spaces. *)
Definition searchFields (t : Template.t) : list (option string) :=
  [Template.name t; Template.context t; Template.task t; Template.format t]
  ++ map Some (JS.orEmpty (Template.rules t))
  ++ map Some (JS.orEmpty (Template.examples t)).

Definition searchText (t : Template.t) : string :=
  JS.toLowerCase (JS.join " " (map JS.joinElement (searchFields t))).

Definition inText (q : string) (t : Template.t) : bool :=
  negb (JS.truthy q) || JS.includes (searchText t) q.

Definition inTag (tg : string) (t : Template.t) : bool :=
  negb (JS.truthy tg)
  || existsb (fun x => JS.includes (JS.toLowerCase x) tg) (JS.orEmpty (Template.tags t)).

Definition filtered (templates : list Template.t) (search tagFilter : string)
  : list Template.t :=
  let q := JS.trim (JS.toLowerCase search) in
  let tg := JS.trim (JS.toLowerCase tagFilter) in
  List.filter (fun t => inText q t && inTag tg t) templates.

(** ** The component state and its handlers *)

Module App.

(** The [useState] cells of [App].  [templates] has the elements of the
    stored array as the templates they read as ([ofJson]). *)
Record State : Type := mkState {
  templates : list Template.t;
  active : option Template.t;
  name : string;
  tags : list string;
  context : string;
  task : string;
  rules : list string;
  format : string;
  examples : list string;
  search : string;
  tagFilter : string;
  showLibrary : bool
}.

Definition bullet (r : string) : string := "- " +:+ r.

(** The array [lines] that [assembled] fills by [push], section by section. *)
Definition lines (st : State) : list string :=
  (if JS.truthy (context st) then ["Context:"; JS.trim (context st); ""] else [])
  ++ (if JS.truthy (task st) then ["Task:"; JS.trim (task st); ""] else [])
  ++ (match rules st with
      | [] => []
      | _ :: _ => "Rules:" :: map bullet (rules st) ++ [""]
      end)
  ++ (if JS.truthy (format st) then ["Format:"; JS.trim (format st); ""] else [])
  ++ (match examples st with
      | [] => []
      | _ :: _ => "Examples:" :: map bullet (examples st) ++ [""]
      end).

Definition assembled (st : State) : string := JS.trim (JS.join JS.LF (lines st)).

Definition resetEditor (st : State) : State :=
  {| templates := templates st; active := None;
     name := ""; tags := []; context := ""; task := ""; rules := [];
     format := ""; examples := [];
     search := search st; tagFilter := tagFilter st; showLibrary := showLibrary st |}.

(** [active?.id && active.id !== 'unsaved']: the id the draft is linked to,
    when it is one to save under. *)
Definition linkedId (st : State) : option string :=
  match active st with
  | Some a =>
      match Template.id a with
      | Some i => if JS.truthy i && negb (bool_decide (i = "unsaved")) then Some i else None
      | None => None
      end
  | None => None
  end.

(** The id [saveTemplate] saves under; [now] is the value of [Date.now()]. *)
Definition saveId (now : N) (st : State) : string :=
  match linkedId st with
  | Some i => i
  | None => JS.numberToString now
  end.

(** The object [next] of [saveTemplate]. *)
Definition next (now : N) (st : State) : Template.t :=
  {| Template.id := Some (saveId now st);
     Template.name := Some (if JS.truthy (name st) then name st else "Untitled");
     Template.tags := Some (tags st);
     Template.context := Some (context st);
     Template.task := Some (task st);
     Template.rules := Some (rules st);
     Template.format := Some (format st);
     Template.examples := Some (examples st) |}.

Definition hasId (i : string) (t : Template.t) : bool :=
  bool_decide (Template.id t = Some i).

Definition saveTemplate (now : N) (st : State) : State :=
  let id := saveId now st in
  let nxt := next now st in
  let exists_ := existsb (hasId id) (templates st) in
  let updated :=
    if exists_ then map (fun t => if hasId id t then nxt else t) (templates st)
    else nxt :: templates st in
  {| templates := updated; active := Some nxt;
     name := name st; tags := tags st; context := context st; task := task st;
     rules := rules st; format := format st; examples := examples st;
     search := search st; tagFilter := tagFilter st; showLibrary := showLibrary st |}.

Definition applyTemplate (t : Template.t) (st : State) : State :=
  {| templates := templates st; active := Some t;
     name := JS.orString (Template.name t) "";
     tags := JS.orEmpty (Template.tags t);
     context := JS.orString (Template.context t) "";
     task := JS.orString (Template.task t) "";
     rules := JS.orEmpty (Template.rules t);
     format := JS.orString (Template.format t) "";
     examples := JS.orEmpty (Template.examples t);
     search := search st; tagFilter := tagFilter st; showLibrary := false |}.

Definition editTemplate (t : Template.t) (st : State) : State := applyTemplate t st.

(** [active?.id]: [undefined] when there is no active template. *)
Definition activeId (st : State) : option string :=
  match active st with
  | Some a => Template.id a
  | None => None
  end.

(** [confirmed] is the answer [window.confirm] returns. *)
Definition deleteTemplate (confirmed : bool) (t : Template.t) (st : State) : State :=
  if negb confirmed then st
  else
    let st' :=
      {| templates := List.filter (fun x => negb (bool_decide (Template.id x = Template.id t)))
                        (templates st);
         active := active st;
         name := name st; tags := tags st; context := context st; task := task st;
         rules := rules st; format := format st; examples := examples st;
         search := search st; tagFilter := tagFilter st; showLibrary := showLibrary st |} in
    if bool_decide (activeId st = Template.id t) then resetEditor st' else st'.

Definition newTemplate (st : State) : State :=
  let st' := resetEditor st in
  {| templates := templates st'; active := active st';
     name := name st'; tags := tags st'; context := context st'; task := task st';
     rules := rules st'; format := format st'; examples := examples st';
     search := search st'; tagFilter := tagFilter st'; showLibrary := false |}.

(** *** Storage, import and export

    [JSON_parse] stands for the platform's [JSON.parse]: what the handlers
    do with its outcome does not depend on the grammar. *)
Section Gateway.

Variable JSON_parse : string → result json.

(** The initial value of [templates] in [useLocalStorageTemplates]; [raw]
    is what [localStorage.getItem] returned, [None] for [null]. *)
Definition useLocalStorageTemplates (raw : option string) : json :=
  match raw with
  | Some s =>
      if JS.truthy s then
        match JSON_parse s with
        | Ok v => v
        | Throw _ => JArr (map toJson DEFAULT_TEMPLATES)
        end
      else JArr (map toJson DEFAULT_TEMPLATES)
  | None => JArr (map toJson DEFAULT_TEMPLATES)
  end.

(** The [try] block of [importTemplates]: the array to store, or the
    message of what was thrown. *)
Definition importData (contents : string) : result (list json) :=
  match JSON_parse contents with
  | Throw m => Throw m
  | Ok (JArr xs) => Ok xs
  | Ok _ => Throw "Invalid file"
  end.

(** [reader.onload] of [importTemplates]: the next state, and the text of
    the [alert] when there is one.  [setTemplates(data)] stores the array of
    [importData] as it is, which is [Raw.importTemplates]; the state here
    has its elements as the templates they read as. *)
Definition importTemplates (contents : string) (st : State) : State * option string :=
  match importData contents with
  | Ok xs =>
      ({| templates := map ofJson xs; active := active st;
          name := name st; tags := tags st; context := context st; task := task st;
          rules := rules st; format := format st; examples := examples st;
          search := search st; tagFilter := tagFilter st; showLibrary := showLibrary st |},
       None)
  | Throw m => (st, Some ("Import failed: " +:+ m))
  end.

End Gateway.

(** The text of the file [exportTemplates] offers for download. *)
Definition exportTemplates (st : State) : string :=
  JSON.stringify2 (JArr (map toJson (templates st))).

End App.

(** ** The rest of the component: the two editors of sequences, the
    storage effects and the initial state *)

(** [s.split(sep)] for a separator of one code unit: the empty string
    splits into one empty piece. *)
Fixpoint split (sep : ascii) (s : string) : list string :=
  match s with
  | EmptyString => [EmptyString]
  | String c s' =>
      if Ascii.eqb c sep then EmptyString :: split sep s'
      else
        match split sep s' with
        | piece :: pieces => String c piece :: pieces
        | [] => [String c EmptyString]
        end
  end.

(** [MultiLineList]: the text area shows [items.join('\n')], and a change
    of its value hands on the trimmed lines that are not empty. *)
Module MultiLineList.

Definition text (items : list string) : string := JS.join JS.LF items.

Definition onChange (value : string) : list string :=
  List.filter JS.truthy (map JS.trim (split "010"%char value)).

End MultiLineList.

(** [TagInput]: the tags it was given and its own [entry] cell; [add] and
    [remove] hand the new tags to [onChange], which is [setTags]. *)
Module TagInput.

Record State : Type := mkState {
  tags : list string;
  entry : string
}.

Definition add (t : string) (st : State) : State :=
  let v := JS.trim t in
  if negb (JS.truthy v) then st
  else
    {| tags := if bool_decide (v ∈ tags st) then tags st else tags st ++ [v];
       entry := "" |}.

Definition remove (t : string) (st : State) : State :=
  {| tags := List.filter (fun x => negb (bool_decide (x = t))) (tags st);
     entry := entry st |}.

End TagInput.

(** [JSON.stringify(value)], without indentation. *)
Fixpoint JSON_stringify (v : json) : string :=
  match v with
  | JNull => "null"
  | JBool true => "true"
  | JBool false => "false"
  | JNum literal => literal
  | JStr s => JSON.quote s
  | JArr xs => "[" +:+ JS.join "," (map JSON_stringify xs) +:+ "]"
  | JObj ms =>
      "{" +:+ JS.join ","
                (map (fun m => JSON.quote (fst m) +:+ ":" +:+ JSON_stringify (snd m)) ms)
          +:+ "}"
  end.

(** [localStorage], a map from keys to strings, and the two effects that
    write to it after a render. *)
Module Storage.

Definition TEMPLATES : string := "apt.templates.v1".
Definition LAST : string := "apt.last.v1".

Definition getItem (key : string) (store : gmap string string) : option string :=
  store !! key.

Definition setItem (key value : string) (store : gmap string string)
  : gmap string string :=
  <[key := value]> store.

(** The object [current] of the effect that keeps the last draft. *)
Definition current (st : App.State) : Template.t :=
  {| Template.id := Some (JS.orString (App.activeId st) "unsaved");
     Template.name := Some (App.name st);
     Template.tags := Some (App.tags st);
     Template.context := Some (App.context st);
     Template.task := Some (App.task st);
     Template.rules := Some (App.rules st);
     Template.format := Some (App.format st);
     Template.examples := Some (App.examples st) |}.

(** The effect of [useLocalStorageTemplates], then the effect of [App]. *)
Definition effects (st : App.State) (store : gmap string string)
  : gmap string string :=
  setItem LAST (JSON_stringify (toJson (current st)))
    (setItem TEMPLATES (JSON_stringify (JArr (map toJson (App.templates st)))) store).

Section Initial.

Variable JSON_parse : string → result json.

(** The initial value of [active]: the parsed last draft, or [null]. *)
Definition initialActive (raw : option string) : option Template.t :=
  match raw with
  | Some s =>
      if JS.truthy s then
        match JSON_parse s with
        | Ok JNull => None
        | Ok v => Some (ofJson v)
        | Throw _ => None
        end
      else None
  | None => None
  end.

End Initial.

(** [active?.f || ''] and [active?.f || []]. *)
Definition stringOf (f : Template.t → option string) (active : option Template.t)
  : string :=
  match active with
  | Some a => JS.orString (f a) ""
  | None => ""
  end.

Definition listOf (f : Template.t → option (list string)) (active : option Template.t)
  : list string :=
  match active with
  | Some a => JS.orEmpty (f a)
  | None => []
  end.

(** The state of the first render, from the collection and [active]. *)
Definition initialState (templates : list Template.t) (active : option Template.t)
  : App.State :=
  App.mkState templates active
    (stringOf Template.name active) (listOf Template.tags active)
    (stringOf Template.context active) (stringOf Template.task active)
    (listOf Template.rules active) (stringOf Template.format active)
    (listOf Template.examples active) "" "" true.

End Storage.

(** ** The library view on the stored array itself

    [setTemplates(data)] stores the parsed array as it is, and
    [TemplateLibrary] reads the properties of its elements, whatever they
    are.  [Raw] evaluates [allTags] and [filtered] on such an array.  An
    evaluation returns a value, throws a [TypeError], or needs the numeric
    value of a number (its truth value or its decimal text), which a number
    kept as its literal does not give: [Beyond]. *)
Inductive run (A : Type) : Type :=
| Done (a : A)
| TypeError
| Beyond.
Arguments Done {A} a.
Arguments TypeError {A}.
Arguments Beyond {A}.

#[global] Instance run_ret : MRet run := @Done.

#[global] Instance run_bind : MBind run := λ A B f r,
  match r with
  | Done a => f a
  | TypeError => TypeError
  | Beyond => Beyond
  end.

Module Raw.

(** The results of a sequence of evaluations, up to the first that gives
    none. *)
Fixpoint all {A} (rs : list (run A)) : run (list A) :=
  match rs with
  | [] => Done []
  | r :: rs' => a ← r; l ← all rs'; Done (a :: l)
  end.

(** [xs.flatMap(f)], [xs.filter(p)] and [xs.some(p)]: the callback runs on
    the elements in order, [some] stops at the first that holds. *)
Fixpoint flatMap {A B} (f : A → run (list B)) (xs : list A) : run (list B) :=
  match xs with
  | [] => Done []
  | x :: xs' => ys ← f x; l ← flatMap f xs'; Done (ys ++ l)
  end.

Fixpoint filter {A} (p : A → run bool) (xs : list A) : run (list A) :=
  match xs with
  | [] => Done []
  | x :: xs' => b ← p x; l ← filter p xs'; Done (if b : bool then x :: l else l)
  end.

Fixpoint some {A} (p : A → run bool) (xs : list A) : run bool :=
  match xs with
  | [] => Done false
  | x :: xs' => b ← p x; if b : bool then Done true else some p xs'
  end.

(** [t.k] for one of the eight property names the component reads: reading
    a property of [null] throws, and no string, number, boolean or array
    has a property of one of these names. *)
Definition get (t : json) (k : string) : run (option json) :=
  match t with
  | JNull => TypeError
  | JObj ms => Done (assoc k ms)
  | _ => Done None
  end.

(** [!x], which decides [x || []]; [None] is [undefined]. *)
Definition falsy (x : option json) : run bool :=
  match x with
  | None | Some JNull => Done true
  | Some (JBool b) => Done (negb b)
  | Some (JNum _) => Beyond
  | Some (JStr s) => Done (negb (JS.truthy s))
  | Some (JArr _) | Some (JObj _) => Done false
  end.

(** What [flatMap] appends for the value [x || []] of its callback: the
    elements of an array, and a value that is no array as it is. *)
Definition flatMapped (x : option json) : run (list json) :=
  f ← falsy x;
  if f : bool then Done []
  else match x with
       | Some (JArr xs) => Done xs
       | Some v => Done [v]
       | None => Done []
       end.

(** [...(x || [])]: an array spreads into its elements and a string into
    its characters; a boolean or an object is not iterable. *)
Definition spread (x : option json) : run (list json) :=
  f ← falsy x;
  if f : bool then Done []
  else match x with
       | Some (JArr xs) => Done xs
       | Some (JStr s) => Done (map (fun c => JStr (String c "")) (list_ascii_of_string s))
       | _ => TypeError
       end.

(** The text of a value, as [join] needs it; inside an array [null] gives
    the empty text. *)
Fixpoint toString (v : json) : run string :=
  match v with
  | JNull => Done "null"
  | JBool b => Done (if b then "true" else "false")
  | JNum _ => Beyond
  | JStr s => Done s
  | JArr xs =>
      ss ← all (map (fun x => match x with JNull => Done "" | _ => toString x end) xs);
      Done (JS.join "," ss)
  | JObj _ => Done "[object Object]"
  end.

Definition joinElement (x : option json) : run string :=
  match x with
  | None | Some JNull => Done ""
  | Some v => toString v
  end.

(** [[t.name, ..., ...(t.examples||[])].join(' ').toLowerCase()] *)
Definition searchText (t : json) : run string :=
  name ← get t "name";
  context ← get t "context";
  task ← get t "task";
  format ← get t "format";
  rules ← get t "rules";
  rs ← spread rules;
  examples ← get t "examples";
  es ← spread examples;
  ss ← all (map joinElement ([name; context; task; format] ++ map Some rs ++ map Some es));
  Done (JS.toLowerCase (JS.join " " ss)).

Definition inText (q : string) (t : json) : run bool :=
  if JS.truthy q then s ← searchText t; Done (JS.includes s q) else Done true.

(** [x.toLowerCase().includes(tg)]: only a string has [toLowerCase]. *)
Definition tagMatches (tg : string) (x : json) : run bool :=
  match x with
  | JStr s => Done (JS.includes (JS.toLowerCase s) tg)
  | _ => TypeError
  end.

(** [(t.tags||[]).some(...)]: only an array has [some]. *)
Definition inTag (tg : string) (t : json) : run bool :=
  if JS.truthy tg then
    tags ← get t "tags";
    f ← falsy tags;
    if f : bool then Done false
    else match tags with
         | Some (JArr xs) => some (tagMatches tg) xs
         | _ => TypeError
         end
  else Done true.

(** The callback of [templates.filter] in [filtered]. *)
Definition passes (q tg : string) (t : json) : run bool :=
  a ← inText q t; b ← inTag tg t; Done (a && b).

Definition filtered (templates : list json) (search tagFilter : string)
  : run (list json) :=
  let q := JS.trim (JS.toLowerCase search) in
  let tg := JS.trim (JS.toLowerCase tagFilter) in
  filter (passes q tg) templates.

(** [Array.from(new Set(...)).sort()], for strings: other values are equal
    and ordered by rules that need more than their literal. *)
Definition text (v : json) : run string :=
  match v with
  | JStr s => Done s
  | _ => Beyond
  end.

Definition allTags (templates : list json) : run (list string) :=
  vs ← flatMap (fun t => tags ← get t "tags"; flatMapped tags) templates;
  ss ← all (map text vs);
  Done (JS.sort (JS.uniq [] ss)).

Section Reader.

Variable JSON_parse : string → result json.

(** [reader.onload] of [importTemplates] on the cell itself: the array
    that [setTemplates] is given is the parsed one. *)
Definition importTemplates (contents : string) (templates : list json)
  : list json * option string :=
  match App.importData JSON_parse contents with
  | Ok xs => (xs, None)
  | Throw m => (templates, Some ("Import failed: " +:+ m))
  end.

End Reader.

End Raw.

(** ** Notions the properties are stated with *)

(** [q] occurs in [s]: some text before it, some text after it. *)
Definition occursIn (q s : string) : Prop :=
  ∃ pre post : string, s = pre +:+ q +:+ post.

(** Empty or white space only. *)
Definition blank (s : string) : Prop := JS.trim s = "".

(** The ids of a collection, in order. *)
Definition ids (ts : list Template.t) : list (option string) := map Template.id ts.

(** A template with every absent sequence property set to the empty
    sequence. *)
Definition fillAbsent (t : Template.t) : Template.t :=
  {| Template.id := Template.id t;
     Template.name := Template.name t;
     Template.tags := Some (JS.orEmpty (Template.tags t));
     Template.context := Template.context t;
     Template.task := Template.task t;
     Template.rules := Some (JS.orEmpty (Template.rules t));
     Template.format := Template.format t;
     Template.examples := Some (JS.orEmpty (Template.examples t)) |}.

(** The text filter in the words of the specification: the query as it
    was typed, looked up in the concatenation of the fields. *)
Definition concatenatedFields (t : Template.t) : string :=
  JS.joinElement (Template.name t) +:+ JS.joinElement (Template.context t)
  +:+ JS.joinElement (Template.task t) +:+ JS.joinElement (Template.format t)
  +:+ JS.join "" (JS.orEmpty (Template.rules t))
  +:+ JS.join "" (JS.orEmpty (Template.examples t)).

Definition passesTextAsTyped (textQuery : string) (t : Template.t) : Prop :=
  blank textQuery
  ∨ occursIn (JS.toLowerCase textQuery) (JS.toLowerCase (concatenatedFields t)).

(** A template whose only text is its name, [code]. *)
Definition codeTemplate : Template.t :=
  Template.mk (Some "t1") (Some "code") (Some []) (Some "") (Some "") (Some []) (Some "") (Some []).

(** The state of a first visit: the seed templates and an empty draft. *)
Definition seedState : App.State :=
  App.mkState DEFAULT_TEMPLATES None "" [] "" "" [] "" [] "" "" true.

(** A file with two templates under one id:
    [[{"id":"a"},{"id":"a"}]]. *)
Definition duplicateIdsFile : string :=
  "[{" +:+ JSON.quote "id" +:+ ":" +:+ JSON.quote "a" +:+ "},{"
       +:+ JSON.quote "id" +:+ ":" +:+ JSON.quote "a" +:+ "}]".

(** The values the round trip is stated for: no number, and no key twice
    in an object. *)
Fixpoint plain (v : json) : bool :=
  match v with
  | JNum _ => false
  | JArr xs => forallb plain xs
  | JObj ms => bool_decide (NoDup (map fst ms)) && forallb (fun m => plain (snd m)) ms
  | _ => true
  end.

(** The depth of calls [JSON.parseValue] needs for a value. *)
Fixpoint size (v : json) : nat :=
  match v with
  | JArr xs => S (list_sum (map (fun x => S (size x)) xs))
  | JObj ms => S (list_sum (map (fun m => S (size (snd m))) ms))
  | _ => 1%nat
  end.

(** Only JSON white space. *)
Fixpoint wsOnly (s : string) : bool :=
  match s with
  | EmptyString => true
  | String c s' => JSON.isWs c && wsOnly s'
  end.

(** [JSON.parseValue] reads a plain value back from its text at any
    indentation, whatever follows, given the depth of calls it needs. *)
Definition parsesBack (v : json) : Prop :=
  plain v = true →
  ∀ indent rest fuel, wsOnly indent = true → (size v ≤ fuel)%nat →
    JSON.parseValue fuel (JSON.serialize indent v +:+ rest) = Ok (v, rest).

(** The assembler in the words of the specification: a section is its
    header, its content and a blank line, and a section without content is
    nothing; a string field that trims to the empty string has no content. *)
Definition specSection (header : string) (content : list string) : list string :=
  match content with
  | [] => []
  | _ :: _ => header :: content ++ [""]
  end.

Definition specContent (field : string) : list string :=
  match JS.trim field with
  | EmptyString => []
  | line => [line]
  end.

Definition specLines (st : App.State) : list string :=
  specSection "Context:" (specContent (App.context st))
  ++ specSection "Task:" (specContent (App.task st))
  ++ specSection "Rules:" (map App.bullet (App.rules st))
  ++ specSection "Format:" (specContent (App.format st))
  ++ specSection "Examples:" (map App.bullet (App.examples st)).

(** [JSON.parseValue] reads a plain value back from its compact text,
    whatever follows, given the depth of calls it needs. *)
Definition parsesBackCompact (v : json) : Prop :=
  plain v = true →
  ∀ rest fuel, (size v ≤ fuel)%nat →
    JSON.parseValue fuel (JSON_stringify v +:+ rest) = Ok (v, rest).

(** A draft whose context is one space and whose task is [Summarise]. *)
Definition blankContextDraft : App.State :=
  App.mkState DEFAULT_TEMPLATES None "" [] " " "Summarise" [] "" [] "" "" true.

(** An element the component is written for: an object whose [id], [name],
    [context], [task] and [format], where it has them, are strings, and
    whose [tags], [rules] and [examples], where it has them, are arrays of
    strings.  It may have other properties, in any order. *)
Definition isString (x : option json) : bool :=
  match x with
  | None | Some (JStr _) => true
  | _ => false
  end.

Definition isStrings (x : option json) : bool :=
  match x with
  | None => true
  | Some (JArr xs) => forallb (fun e => isString (Some e)) xs
  | _ => false
  end.

Definition templateObject (v : json) : bool :=
  match v with
  | JObj ms =>
      isString (assoc "id" ms) && isString (assoc "name" ms)
      && isStrings (assoc "tags" ms) && isString (assoc "context" ms)
      && isString (assoc "task" ms) && isStrings (assoc "rules" ms)
      && isString (assoc "format" ms) && isStrings (assoc "examples" ms)
  | _ => false
  end.

(** An object with the property [k] set to the empty array. *)
Definition withEmpty (k : string) (ms : list (string * json)) : json :=
  JObj (ms ++ [(k, JArr [])]).

(** * Properties *)

Example assembled_empty_smoke :
  App.assembled (App.mkState [] None "n" ["x"] "" "" [] "" [] "" "" true) = "".
Proof. reflexivity. Qed.

Example filtered_seed_code :
  map Template.name (filtered DEFAULT_TEMPLATES "code" "") = [Some "Code Review Helper"].
Proof. reflexivity. Qed.

(** ** The assembler *)

(** C9: a draft whose context, task and format are empty strings and whose
    rules and examples are empty sequences assembles to the empty string,
    whatever its other fields are. *)
Theorem assembled_empty (st : App.State) :
  App.context st = "" → App.task st = "" → App.format st = "" →
  App.rules st = [] → App.examples st = [] →
  App.assembled st = "".
Proof.
  intros Hc Ht Hf Hr He. unfold App.assembled, App.lines.
  rewrite Hc, Ht, Hf, Hr, He. reflexivity.
Qed.

Lemma assembled_empty_witness :
  App.assembled (App.mkState DEFAULT_TEMPLATES None "Draft" ["x"] "" "" [] "" [] "q" "" true) = "".
Proof. apply assembled_empty; reflexivity. Defined.

(** A section is pushed exactly when its field is truthy: for a string
    field that is any string but the empty one. *)
Lemma lines_context_header (st : App.State) :
  App.context st ≠ "" →
  ∃ rest, App.lines st = "Context:" :: JS.trim (App.context st) :: "" :: rest.
Proof.
  intros Hne. unfold App.lines.
  destruct (App.context st) as [|c s] eqn:E; [congruence|].
  simpl. eauto.
Qed.

Lemma pushed_as_specified (header field : string) :
  field = "" ∨ ¬ blank field →
  (if JS.truthy field then [header; JS.trim field; ""] else [])
  = specSection header (specContent field).
Proof.
  unfold specContent, blank. intros [->|Hnb]; [done|].
  destruct field as [|c s]; [done|].
  cbn [JS.truthy]. by destruct (JS.trim (String c s)).
Qed.

Lemma bullets_as_specified (header : string) (items : list string) :
  match items with
  | [] => []
  | _ :: _ => header :: map App.bullet items ++ [""]
  end = specSection header (map App.bullet items).
Proof. by destruct items. Qed.

(** Where no string field is white space only, [lines] is what the
    specification describes: the sections with content, each once, in the
    order Context, Task, Rules, Format, Examples. *)
Lemma lines_as_specified (st : App.State) :
  (App.context st = "" ∨ ¬ blank (App.context st)) →
  (App.task st = "" ∨ ¬ blank (App.task st)) →
  (App.format st = "" ∨ ¬ blank (App.format st)) →
  App.lines st = specLines st.
Proof.
  intros Hc Ht Hf. unfold App.lines, specLines.
  by rewrite !pushed_as_specified, !bullets_as_specified.
Qed.

(** C1: at a draft whose context is a single space the assembled prompt
    has the header line [Context:] followed by an empty line, although the
    context trims to the empty string; the claim says such a section
    contributes no header and no blank line, which is what the same draft
    with the empty context gives. *)
Theorem assembled_blank_context_header :
  blank (App.context blankContextDraft)
  ∧ App.lines blankContextDraft = ["Context:"; ""; ""; "Task:"; "Summarise"; ""]
  ∧ specLines blankContextDraft = ["Task:"; "Summarise"; ""]
  ∧ App.assembled blankContextDraft
    = "Context:" +:+ JS.LF +:+ JS.LF +:+ JS.LF +:+ "Task:" +:+ JS.LF +:+ "Summarise"
  ∧ App.assembled
      (App.mkState DEFAULT_TEMPLATES None "" [] "" "Summarise" [] "" [] "" "" true)
    = "Task:" +:+ JS.LF +:+ "Summarise".
Proof. repeat split. Qed.

(** ** The editor: save and delete *)

Lemma lookup_map {A B : Type} (f : A → B) (l : list A) (k : nat) :
  map f l !! k = f <$> (l !! k).
Proof. revert k. induction l as [|x l IH]; intros [|k]; simpl; auto. Qed.

Lemma existsb_hasId (i : string) (ts : list Template.t) :
  existsb (App.hasId i) ts = true ↔ ∃ t, t ∈ ts ∧ Template.id t = Some i.
Proof.
  rewrite existsb_exists. split.
  - intros (t & Hin & Hid). exists t. split; [by apply list_elem_of_In|].
    unfold App.hasId in Hid. by apply bool_decide_eq_true in Hid.
  - intros (t & Hin & Hid). exists t. split; [by apply list_elem_of_In|].
    unfold App.hasId. by apply bool_decide_eq_true.
Qed.

Lemma linkedId_Some (st : App.State) (i : string) :
  App.linkedId st = Some i ↔
  ∃ a, App.active st = Some a ∧ Template.id a = Some i ∧ i ≠ "" ∧ i ≠ "unsaved".
Proof.
  unfold App.linkedId. split.
  - destruct (App.active st) as [a|]; [|done].
    destruct (Template.id a) as [j|] eqn:Hj; [|done].
    destruct j as [|c j]; [done|]. simpl.
    case_bool_decide as Hu; simpl; [done|].
    intros [= <-]. exists a. by rewrite Hj.
  - intros (a & -> & -> & Hne & Hu).
    destruct i as [|c i]; [done|]. simpl.
    by rewrite bool_decide_eq_false_2.
Qed.

Lemma numberToString_digits (n : N) :
  JS.numberToString n ≠ "" ∧ JS.numberToString n ≠ "unsaved".
Proof.
  unfold JS.numberToString. destruct n as [|p]; [done|]. simpl.
  pose proof (DecimalPos.Unsigned.to_uint_nonnil p) as Hnil.
  by destruct (Pos.to_uint p).
Qed.

(** Two times have the same decimal text only when they are the same. *)
Lemma numberToString_inj (m n : N) :
  JS.numberToString m = JS.numberToString n → m = n.
Proof.
  unfold JS.numberToString. intros E. apply DecimalN.Unsigned.to_uint_inj.
  assert (Some (N.to_uint m) = Some (N.to_uint n)) as [= ->]; [|done].
  by rewrite <- !NilEmpty.usu, E.
Qed.

Lemma saveId_usable (now : N) (st : App.State) :
  App.saveId now st ≠ "" ∧ App.saveId now st ≠ "unsaved".
Proof.
  unfold App.saveId. destruct (App.linkedId st) as [i|] eqn:E.
  - apply linkedId_Some in E as (a & _ & _ & ? & ?). done.
  - apply numberToString_digits.
Qed.

Lemma linkedId_saveTemplate (now : N) (st : App.State) :
  App.linkedId (App.saveTemplate now st) = Some (App.saveId now st).
Proof.
  apply linkedId_Some. exists (App.next now st).
  destruct (saveId_usable now st). done.
Qed.

Example numberToString_of_a_time :
  JS.numberToString 1762041600000 = "1762041600000".
Proof. reflexivity. Qed.

(** C3: [saveTemplate] saves under the id the draft is linked to when that
    id is set (not empty) and is not [unsaved], and otherwise under a minted
    one.  The minted id is the decimal text of the current time: it is not
    the id the draft had, it is the text of no other time, and, like every
    id saved under, it is neither empty nor [unsaved].  The template is
    built from the draft fields with an empty name replaced by [Untitled];
    where the collection holds the id the template takes that place and
    every other template stays where it is, otherwise the template goes to
    the front; afterwards the draft is linked to the saved template, under
    the saved id, and its fields are what they were. *)
Theorem saveTemplate_spec (now : N) (st : App.State) :
  let id := App.saveId now st in
  let nxt := App.next now st in
  let st' := App.saveTemplate now st in
  (∀ a i, App.active st = Some a → Template.id a = Some i →
          i ≠ "" → i ≠ "unsaved" → id = i)
  ∧ ((¬ ∃ a i, App.active st = Some a ∧ Template.id a = Some i
               ∧ i ≠ "" ∧ i ≠ "unsaved") →
     id = JS.numberToString now
     ∧ (∀ a i, App.active st = Some a → Template.id a = Some i → id ≠ i)
     ∧ ∀ other : N, other ≠ now → JS.numberToString other ≠ id)
  ∧ id ≠ "" ∧ id ≠ "unsaved"
  ∧ nxt = Template.mk (Some id)
            (Some (if decide (App.name st = "") then "Untitled" else App.name st))
            (Some (App.tags st)) (Some (App.context st)) (Some (App.task st))
            (Some (App.rules st)) (Some (App.format st)) (Some (App.examples st))
  ∧ ((∃ t, t ∈ App.templates st ∧ Template.id t = Some id) →
     length (App.templates st') = length (App.templates st)
     ∧ ∀ k t, App.templates st !! k = Some t →
              App.templates st' !! k
              = Some (if decide (Template.id t = Some id) then nxt else t))
  ∧ ((¬ ∃ t, t ∈ App.templates st ∧ Template.id t = Some id) →
     App.templates st' = nxt :: App.templates st)
  ∧ App.active st' = Some nxt
  ∧ App.linkedId st' = Some id
  ∧ (App.name st', App.tags st', App.context st', App.task st',
     App.rules st', App.format st', App.examples st')
    = (App.name st, App.tags st, App.context st, App.task st,
       App.rules st, App.format st, App.examples st).
Proof.
  intros id nxt st'.
  assert ((¬ ∃ a i, App.active st = Some a ∧ Template.id a = Some i
                    ∧ i ≠ "" ∧ i ≠ "unsaved") → id = JS.numberToString now) as Hmint.
  { intros Hno. subst id. unfold App.saveId.
    destruct (App.linkedId st) as [i|] eqn:E; [|done].
    apply linkedId_Some in E as (a & ? & ? & ? & ?). destruct Hno. eauto 6. }
  destruct (saveId_usable now st) as [Hne Hu]. fold id in Hne, Hu.
  split; [|split; [|split; [|split; [|split; [|split; [|split; [|split; [|split]]]]]]]].
  - intros a i Ha Hi Hi1 Hi2. subst id. unfold App.saveId.
    assert (App.linkedId st = Some i) as ->; [|done].
    apply linkedId_Some. eauto.
  - intros Hno. split; [by apply Hmint|]. split.
    + intros a i Ha Hi <-. destruct Hno. eauto 6.
    + intros other Hother E. rewrite (Hmint Hno) in E.
      by apply numberToString_inj in E.
  - done.
  - done.
  - subst nxt id. unfold App.next. f_equal.
    destruct (App.name st); by case_decide.
  - intros H. split.
    + subst st'. unfold App.saveTemplate. simpl.
      apply existsb_hasId in H. fold id. rewrite H. by rewrite length_map.
    + intros k t Hk. subst st'. unfold App.saveTemplate. simpl.
      apply existsb_hasId in H. fold id nxt. rewrite H.
      rewrite lookup_map, Hk. simpl. f_equal. unfold App.hasId.
      by repeat case_decide; case_bool_decide.
  - intros Hno. subst st'. unfold App.saveTemplate. simpl. fold id nxt.
    destruct (existsb (App.hasId id) (App.templates st)) eqn:E; [|done].
    apply existsb_hasId in E. contradiction.
  - done.
  - apply linkedId_saveTemplate.
  - done.
Qed.

(** The time is not looked up in the collection: a template saved under
    the text of a time is replaced by a draft saved at that time. *)
Example minted_id_in_the_collection :
  let held := Template.mk (Some "5") (Some "Old") None None None None None None in
  let st := App.mkState [held] None "New" [] "" "" [] "" [] "" "" false in
  map Template.name (App.templates (App.saveTemplate 5 st)) = [Some "New"]
  ∧ map Template.name (App.templates (App.saveTemplate 6 st)) = [Some "New"; Some "Old"].
Proof. split; reflexivity. Qed.

Lemma filter_elem_of {A : Type} (f : A → bool) (l : list A) (x : A) :
  x ∈ List.filter f l ↔ x ∈ l ∧ f x = true.
Proof. rewrite !list_elem_of_In. apply filter_In. Qed.

Lemma filter_sublist {A : Type} (f : A → bool) (l : list A) :
  sublist (List.filter f l) l.
Proof.
  induction l as [|x l IH]; simpl; [constructor|].
  destruct (f x); by constructor.
Qed.

Lemma deleteTemplate_templates (t : Template.t) (st : App.State) :
  App.templates (App.deleteTemplate true t st)
  = List.filter (fun x => negb (bool_decide (Template.id x = Template.id t)))
      (App.templates st).
Proof. unfold App.deleteTemplate. simpl. by case_bool_decide. Qed.

(** C5: when the user declines, [deleteTemplate] changes nothing; when the
    user confirms, the templates with the id of the given one leave the
    collection and the others stay, in order, and where the draft was linked
    to a template with that id it becomes an unsaved new draft with every
    field empty. *)
Theorem deleteTemplate_spec (t : Template.t) (st : App.State) :
  App.deleteTemplate false t st = st
  ∧ let st' := App.deleteTemplate true t st in
    (∀ x, x ∈ App.templates st' ↔ x ∈ App.templates st ∧ Template.id x ≠ Template.id t)
    ∧ sublist (App.templates st') (App.templates st)
    ∧ ((∃ a, App.active st = Some a ∧ Template.id a = Template.id t) →
       App.active st' = None
       ∧ (App.name st', App.tags st', App.context st', App.task st',
          App.rules st', App.format st', App.examples st')
         = ("", [], "", "", [], "", []))
    ∧ (App.activeId st ≠ Template.id t →
       App.active st' = App.active st
       ∧ (App.name st', App.tags st', App.context st', App.task st',
          App.rules st', App.format st', App.examples st')
         = (App.name st, App.tags st, App.context st, App.task st,
            App.rules st, App.format st, App.examples st)).
Proof.
  split; [done|]. intros st'. split; [|split; [|split]].
  - intros x. subst st'. rewrite deleteTemplate_templates, filter_elem_of.
    by rewrite negb_true_iff, bool_decide_eq_false.
  - subst st'. rewrite deleteTemplate_templates. apply filter_sublist.
  - intros (a & Ha & Hid). subst st'. unfold App.deleteTemplate. simpl.
    rewrite bool_decide_eq_true_2; [done|]. unfold App.activeId. by rewrite Ha.
  - intros Hne. subst st'. unfold App.deleteTemplate. simpl.
    by rewrite bool_decide_eq_false_2.
Qed.

(** ** The library view *)

Local Arguments String.append : simpl nomatch.

Lemma prefix_spec (q s : string) :
  String.prefix q s = true ↔ ∃ post, s = q +:+ post.
Proof.
  revert s. induction q as [|a q IH]; intros s; simpl.
  - destruct s; split; eauto.
  - destruct s as [|b s]; simpl.
    + split; [done|]. by intros [post Hp].
    + destruct (ascii_dec a b) as [->|Hne].
      * rewrite IH. split; intros [post Hp]; exists post; congruence.
      * split; [done|]. intros [post Hp]. congruence.
Qed.

Lemma includes_spec (s q : string) : JS.includes s q = true ↔ occursIn q s.
Proof.
  induction s as [|c s IH]; cbn [JS.includes].
  - destruct (String.prefix q "") eqn:E.
    + split; [|done]. intros _. apply prefix_spec in E as [post E].
      by exists "", post.
    + split; [done|]. intros (pre & post & Hs).
      destruct pre; [|done]. simpl in Hs.
      assert (String.prefix q "" = true); [|congruence].
      apply prefix_spec. eauto.
  - destruct (String.prefix q (String c s)) eqn:E.
    + split; [|done]. intros _. apply prefix_spec in E as [post E].
      by exists "", post.
    + rewrite IH. split.
      * intros (pre & post & ->). by exists (String c pre), post.
      * intros (pre & post & Hs). destruct pre as [|c' pre]; simpl in Hs.
        -- assert (String.prefix q (String c s) = true); [|congruence].
           apply prefix_spec. eauto.
        -- injection Hs as _ ->. by exists pre, post.
Qed.

Lemma isWhiteSpace_lowerChar (c : ascii) :
  JS.isWhiteSpace (JS.lowerChar c) = JS.isWhiteSpace c.
Proof. by destruct c as [[] [] [] [] [] [] [] []]. Qed.

Lemma trimStart_toLowerCase (s : string) :
  JS.trimStart (JS.toLowerCase s) = JS.toLowerCase (JS.trimStart s).
Proof.
  induction s as [|c s IH]; simpl; [done|].
  rewrite isWhiteSpace_lowerChar. by destruct (JS.isWhiteSpace c).
Qed.

Lemma trimEnd_toLowerCase (s : string) :
  JS.trimEnd (JS.toLowerCase s) = JS.toLowerCase (JS.trimEnd s).
Proof.
  induction s as [|c s IH]; simpl; [done|].
  rewrite IH, isWhiteSpace_lowerChar.
  destruct (JS.trimEnd s); simpl; [|done]. by destruct (JS.isWhiteSpace c).
Qed.

(** Lower-casing and trimming commute, so the query the filter looks up is
    the lower-cased trimmed input. *)
Lemma trim_toLowerCase (s : string) :
  JS.trim (JS.toLowerCase s) = JS.toLowerCase (JS.trim s).
Proof. unfold JS.trim. by rewrite trimStart_toLowerCase, trimEnd_toLowerCase. Qed.

Lemma truthy_false (s : string) : JS.truthy s = false ↔ s = "".
Proof. by destruct s. Qed.

Lemma blank_query (s : string) :
  JS.truthy (JS.trim (JS.toLowerCase s)) = false ↔ blank s.
Proof.
  rewrite truthy_false, trim_toLowerCase. unfold blank.
  by destruct (JS.trim s).
Qed.

Lemma inText_spec (search : string) (t : Template.t) :
  inText (JS.trim (JS.toLowerCase search)) t = true ↔
  blank search ∨ occursIn (JS.trim (JS.toLowerCase search)) (searchText t).
Proof.
  unfold inText. rewrite orb_true_iff, negb_true_iff, blank_query, includes_spec.
  done.
Qed.

Lemma inTag_spec (tagFilter : string) (t : Template.t) :
  inTag (JS.trim (JS.toLowerCase tagFilter)) t = true ↔
  blank tagFilter
  ∨ ∃ x, x ∈ JS.orEmpty (Template.tags t)
         ∧ occursIn (JS.trim (JS.toLowerCase tagFilter)) (JS.toLowerCase x).
Proof.
  unfold inTag. rewrite orb_true_iff, negb_true_iff, blank_query, existsb_exists.
  split; (intros [?|(x & Hin & Hx)]; [by left|right; exists x]).
  - by rewrite list_elem_of_In, <- includes_spec.
  - by rewrite <- list_elem_of_In, includes_spec.
Qed.

Lemma filter_all {A : Type} (f : A → bool) (l : list A) :
  (∀ x, f x = true) → List.filter f l = l.
Proof. intros Hf. induction l as [|x l IH]; simpl; [done|]. by rewrite Hf, IH. Qed.

Lemma elem_of_filtered (templates : list Template.t) (search tagFilter : string)
    (t : Template.t) :
  t ∈ filtered templates search tagFilter ↔
  t ∈ templates
  ∧ (blank search ∨ occursIn (JS.trim (JS.toLowerCase search)) (searchText t))
  ∧ (blank tagFilter
     ∨ ∃ x, x ∈ JS.orEmpty (Template.tags t)
            ∧ occursIn (JS.trim (JS.toLowerCase tagFilter)) (JS.toLowerCase x)).
Proof.
  unfold filtered.
  by rewrite filter_elem_of, andb_true_iff, inText_spec, inTag_spec.
Qed.

(** C2, as the code has it: a template is in [filtered] exactly when it is
    in the collection, the text query is blank or its trimmed lower-case
    form occurs in the template's search text (the lower-cased fields joined
    by single spaces), and the tag query is blank or its trimmed lower-case
    form occurs in the lower-case form of one of the tags; the result keeps
    the order of the collection, and two empty queries give the collection
    back. *)
Theorem filtered_spec (templates : list Template.t) (search tagFilter : string) :
  let q := JS.trim (JS.toLowerCase search) in
  let tg := JS.trim (JS.toLowerCase tagFilter) in
  (∀ t, t ∈ filtered templates search tagFilter ↔
        t ∈ templates
        ∧ (blank search ∨ occursIn q (searchText t))
        ∧ (blank tagFilter
           ∨ ∃ x, x ∈ JS.orEmpty (Template.tags t) ∧ occursIn tg (JS.toLowerCase x)))
  ∧ sublist (filtered templates search tagFilter) templates
  ∧ filtered templates "" "" = templates.
Proof.
  intros q tg. split; [|split].
  - intros t. apply elem_of_filtered.
  - apply filter_sublist.
  - by apply filter_all.
Qed.

(** C2, as it is stated, fails: the query [ code] with a leading space
    selects a template whose whole text is [code], and that text does not
    contain the query as it was typed, with or without separators between
    the fields. *)
Lemma filtered_trims_query :
  codeTemplate ∈ filtered [codeTemplate] " code" ""
  ∧ ¬ passesTextAsTyped " code" codeTemplate
  ∧ ¬ occursIn (JS.toLowerCase " code") (searchText codeTemplate).
Proof.
  split; [|split].
  - vm_compute. by left.
  - intros [Hb|Ho]; [done|]. by apply includes_spec in Ho.
  - intros Ho. by apply includes_spec in Ho.
Qed.

Lemma filter_map {A B : Type} (f : B → bool) (g : A → B) (l : list A) :
  List.filter f (map g l) = map g (List.filter (fun x => f (g x)) l).
Proof.
  induction l as [|x l IH]; simpl; [done|].
  destruct (f (g x)); simpl; by rewrite IH.
Qed.

Lemma flat_map_map {A B C : Type} (f : B → list C) (g : A → B) (l : list A) :
  flat_map f (map g l) = flat_map (fun x => f (g x)) l.
Proof. induction l as [|x l IH]; simpl; [done|]. by rewrite IH. Qed.

Lemma searchText_fillAbsent (t : Template.t) : searchText (fillAbsent t) = searchText t.
Proof. done. Qed.

Lemma inTag_fillAbsent (tg : string) (t : Template.t) :
  inTag tg (fillAbsent t) = inTag tg t.
Proof. done. Qed.

(** ** The typed view of stored elements *)

Lemma asStrings_strings (l : list string) : asStrings (Some (strings l)) = Some l.
Proof.
  unfold asStrings, strings. induction l as [|x l IH]; simpl; [done|].
  simpl in IH. by rewrite IH.
Qed.

Lemma ofJson_toJson (t : Template.t) : ofJson (toJson t) = t.
Proof.
  destruct t as [[i|] [n|] [tg|] [c|] [k|] [r|] [f|] [e|]];
    unfold ofJson, toJson; cbn -[asStrings strings];
    by rewrite ?asStrings_strings.
Qed.

Lemma ofJson_collection (ts : list Template.t) : map ofJson (map toJson ts) = ts.
Proof.
  induction ts as [|t ts IH]; [done|]. cbn [map]. by rewrite ofJson_toJson, IH.
Qed.

(** ** The library view on the stored array *)

Lemma all_Done {A : Type} (l : list A) : Raw.all (map Done l) = Done l.
Proof. induction l as [|x l IH]; simpl; [done|]. by rewrite IH. Qed.

Lemma flatMap_Done {A B : Type} (f : A → run (list B)) (g : A → list B) (xs : list A) :
  Forall (fun x => f x = Done (g x)) xs → Raw.flatMap f xs = Done (flat_map g xs).
Proof.
  induction 1 as [|x xs Hx _ IH]; simpl; [done|]. by rewrite Hx, IH.
Qed.

Lemma filter_Done {A : Type} (p : A → run bool) (g : A → bool) (xs : list A) :
  Forall (fun x => p x = Done (g x)) xs → Raw.filter p xs = Done (List.filter g xs).
Proof.
  induction 1 as [|x xs Hx _ IH]; simpl; [done|]. by rewrite Hx, IH.
Qed.

Lemma some_strings (tg : string) (l : list string) :
  Raw.some (Raw.tagMatches tg) (map JStr l)
  = Done (existsb (fun x => JS.includes (JS.toLowerCase x) tg) l).
Proof.
  induction l as [|x l IH]; simpl; [done|].
  by destruct (JS.includes (JS.toLowerCase x) tg).
Qed.

Lemma isStrings_array (xs : list json) :
  forallb (fun e => isString (Some e)) xs = true → ∃ l, xs = map JStr l.
Proof.
  induction xs as [|x xs IH]; simpl; [by exists []|].
  intros [Hx Hxs]%andb_true_iff. destruct (IH Hxs) as (l & ->).
  destruct x; try done. by exists (s :: l).
Qed.

(** What a sequence property of a template object reads as. *)
Lemma isStrings_cases (x : option json) :
  isStrings x = true →
  (x = None ∧ asStrings x = None) ∨ ∃ l, x = Some (strings l) ∧ asStrings x = Some l.
Proof.
  destruct x as [[]|]; try done; [|by left].
  intros (l & ->)%isStrings_array. right. exists l. split; [done|].
  apply asStrings_strings.
Qed.

Lemma spread_strings (x : option json) :
  isStrings x = true → Raw.spread x = Done (map JStr (JS.orEmpty (asStrings x))).
Proof. by intros [[-> ->]|(l & -> & ->)]%isStrings_cases. Qed.

Lemma flatMapped_strings (x : option json) :
  isStrings x = true → Raw.flatMapped x = Done (map JStr (JS.orEmpty (asStrings x))).
Proof. by intros [[-> ->]|(l & -> & ->)]%isStrings_cases. Qed.

Lemma joinElement_string (x : option json) :
  isString x = true → Raw.joinElement x = Done (JS.joinElement (asString x)).
Proof. by destruct x as [[]|]. Qed.

Lemma templateObject_fields (v : json) :
  templateObject v = true →
  ∃ ms, v = JObj ms
    ∧ isString (assoc "name" ms) = true ∧ isStrings (assoc "tags" ms) = true
    ∧ isString (assoc "context" ms) = true ∧ isString (assoc "task" ms) = true
    ∧ isStrings (assoc "rules" ms) = true ∧ isString (assoc "format" ms) = true
    ∧ isStrings (assoc "examples" ms) = true.
Proof.
  destruct v as [| | | | |ms]; try done. unfold templateObject.
  rewrite !andb_true_iff. intros. exists ms. tauto.
Qed.

Lemma searchText_templateObject (v : json) :
  templateObject v = true → Raw.searchText v = Done (searchText (ofJson v)).
Proof.
  intros (ms & -> & Hn & _ & Hc & Hk & Hr & Hf & He)%templateObject_fields.
  unfold Raw.searchText, searchText, searchFields, ofJson. cbn [Raw.get getProp Template.name
    Template.context Template.task Template.format Template.rules Template.examples].
  cbn [mbind run_bind].
  rewrite (spread_strings _ Hr). cbn [mbind run_bind].
  rewrite (spread_strings _ He). cbn [mbind run_bind].
  rewrite !map_app. cbn [map app].
  rewrite !joinElement_string by done.
  replace (map Raw.joinElement (map Some (map JStr (JS.orEmpty (asStrings (assoc "rules" ms))))))
    with (map Done (map JS.joinElement (map Some (JS.orEmpty (asStrings (assoc "rules" ms))))))
    by (by rewrite !map_map).
  replace (map Raw.joinElement (map Some (map JStr (JS.orEmpty (asStrings (assoc "examples" ms))))))
    with (map Done (map JS.joinElement (map Some (JS.orEmpty (asStrings (assoc "examples" ms))))))
    by (by rewrite !map_map).
  rewrite <- (map_app Done). cbn [Raw.all mbind run_bind].
  by rewrite all_Done.
Qed.

Lemma passes_templateObject (q tg : string) (v : json) :
  templateObject v = true →
  Raw.passes q tg v = Done (inText q (ofJson v) && inTag tg (ofJson v)).
Proof.
  intros Hv. unfold Raw.passes, Raw.inText, inText.
  assert (Raw.inTag tg v = Done (inTag tg (ofJson v))) as Htag.
  { apply templateObject_fields in Hv as (ms & -> & _ & Ht & _).
    unfold Raw.inTag, inTag, ofJson. cbn [Raw.get getProp Template.tags].
    destruct (JS.truthy tg); [|done]. cbn [mbind run_bind negb orb].
    apply isStrings_cases in Ht as [[-> ->]|(l & -> & ->)]; [done|].
    cbn. apply some_strings. }
  destruct (JS.truthy q); cbn [negb orb].
  - rewrite (searchText_templateObject _ Hv). cbn [mbind run_bind]. by rewrite Htag.
  - cbn [mbind run_bind]. by rewrite Htag.
Qed.

Lemma filtered_templateObjects (xs : list json) (search tagFilter : string) :
  Forall (fun v => templateObject v = true) xs →
  Raw.filtered xs search tagFilter
  = Done (List.filter (fun v => inText (JS.trim (JS.toLowerCase search)) (ofJson v)
                               && inTag (JS.trim (JS.toLowerCase tagFilter)) (ofJson v)) xs).
Proof.
  intros Hxs. unfold Raw.filtered. apply filter_Done.
  eapply Forall_impl; [exact Hxs|]. intros v Hv. by apply passes_templateObject.
Qed.

Lemma text_strings (l : list string) : Raw.all (map Raw.text (map JStr l)) = Done l.
Proof. rewrite map_map. apply (all_Done l). Qed.

Lemma flat_map_strings {A : Type} (g : A → list string) (xs : list A) :
  flat_map (fun x => map JStr (g x)) xs = map JStr (flat_map g xs).
Proof. induction xs as [|x xs IH]; simpl; [done|]. by rewrite IH, map_app. Qed.

Lemma allTags_templateObjects (xs : list json) :
  Forall (fun v => templateObject v = true) xs →
  Raw.allTags xs = Done (allTags (map ofJson xs)).
Proof.
  intros Hxs. unfold Raw.allTags, allTags.
  rewrite (flatMap_Done _ (fun v => map JStr (JS.orEmpty (Template.tags (ofJson v)))) xs).
  - cbn [mbind run_bind]. rewrite flat_map_strings, text_strings. cbn [mbind run_bind].
    by rewrite flat_map_map.
  - eapply Forall_impl; [exact Hxs|]. intros v Hv.
    apply templateObject_fields in Hv as (ms & -> & _ & Ht & _).
    cbn [Raw.get mbind run_bind]. by apply flatMapped_strings.
Qed.

Lemma assoc_app (k : string) (ms ms' : list (string * json)) :
  assoc k (ms ++ ms') = match assoc k ms with Some v => Some v | None => assoc k ms' end.
Proof.
  induction ms as [|[k' v] ms IH]; simpl; [done|]. by destruct (String.eqb k k').
Qed.

Lemma assoc_other (k k' : string) (v : json) (ms : list (string * json)) :
  String.eqb k' k = false → assoc k' (ms ++ [(k, v)]) = assoc k' ms.
Proof. intros E. rewrite assoc_app. simpl. rewrite E. by destruct (assoc k' ms). Qed.

Lemma assoc_added (k : string) (v : json) (ms : list (string * json)) :
  assoc k ms = None → assoc k (ms ++ [(k, v)]) = Some v.
Proof. intros E. rewrite assoc_app, E. simpl. by rewrite String.eqb_refl. Qed.

(** An absent sequence property and an empty one are read alike. *)
Lemma passes_withEmpty (k : string) (ms : list (string * json)) (q tg : string) :
  k ∈ ["tags"; "rules"; "examples"] → assoc k ms = None →
  Raw.passes q tg (withEmpty k ms) = Raw.passes q tg (JObj ms).
Proof.
  intros Hk Hnone. unfold withEmpty, Raw.passes, Raw.inText, Raw.inTag, Raw.searchText.
  cbn [Raw.get mbind run_bind].
  apply elem_of_cons in Hk as [->|Hk]; [|apply elem_of_cons in Hk as [->|Hk]];
    [| |apply list_elem_of_singleton in Hk as ->];
    rewrite (assoc_added _ _ _ Hnone), Hnone, !assoc_other by reflexivity.
  - by destruct (JS.truthy tg).
  - done.
  - done.
Qed.

Lemma tagsOf_withEmpty (k : string) (ms : list (string * json)) :
  k ∈ ["tags"; "rules"; "examples"] → assoc k ms = None →
  (Raw.get (withEmpty k ms) "tags" ≫= Raw.flatMapped)
  = (Raw.get (JObj ms) "tags" ≫= Raw.flatMapped).
Proof.
  intros Hk Hnone. unfold withEmpty. cbn [Raw.get mbind run_bind].
  apply elem_of_cons in Hk as [->|Hk]; [|apply elem_of_cons in Hk as [->|Hk]];
    [| |apply list_elem_of_singleton in Hk as ->].
  - by rewrite (assoc_added _ _ _ Hnone), Hnone.
  - by rewrite assoc_other.
  - by rewrite assoc_other.
Qed.

Lemma flatMap_app {A B : Type} (f : A → run (list B)) (xs ys : list A) :
  Raw.flatMap f (xs ++ ys)
  = (l ← Raw.flatMap f xs; r ← Raw.flatMap f ys; Done (l ++ r)).
Proof.
  induction xs as [|x xs IH]; simpl.
  - by destruct (Raw.flatMap f ys).
  - destruct (f x) as [a| |]; simpl; [|done..]. rewrite IH.
    destruct (Raw.flatMap f xs) as [l| |]; simpl; [|done..].
    destruct (Raw.flatMap f ys) as [r| |]; simpl; [|done..].
    by rewrite app_assoc.
Qed.

Lemma allTags_same_tags (v w : json) (xs1 xs2 : list json) :
  (Raw.get v "tags" ≫= Raw.flatMapped) = (Raw.get w "tags" ≫= Raw.flatMapped) →
  Raw.allTags (xs1 ++ v :: xs2) = Raw.allTags (xs1 ++ w :: xs2).
Proof.
  intros E. unfold Raw.allTags. rewrite !flatMap_app. cbn [Raw.flatMap].
  change (tags ← Raw.get v "tags"; Raw.flatMapped tags)
    with (Raw.get v "tags" ≫= Raw.flatMapped).
  change (tags ← Raw.get w "tags"; Raw.flatMapped tags)
    with (Raw.get w "tags" ≫= Raw.flatMapped).
  by rewrite E.
Qed.

Lemma allTags_no_tags (ms : list (string * json)) (xs1 xs2 : list json) :
  assoc "tags" ms = None →
  Raw.allTags (xs1 ++ JObj ms :: xs2) = Raw.allTags (xs1 ++ xs2).
Proof.
  intros E. unfold Raw.allTags. rewrite !flatMap_app. cbn [Raw.flatMap Raw.get].
  rewrite E. cbn [mbind run_bind Raw.flatMapped Raw.falsy].
  destruct (Raw.flatMap _ xs1) as [l| |]; [|done..]. cbn [mbind run_bind].
  by destruct (Raw.flatMap _ xs2).
Qed.

Lemma filtered_blank (xs : list json) (search tagFilter : string) :
  blank search → blank tagFilter → Raw.filtered xs search tagFilter = Done xs.
Proof.
  intros Hs Ht. unfold Raw.filtered.
  rewrite (filter_Done _ (fun _ => true)).
  - by rewrite filter_all.
  - apply Forall_forall. intros v _. unfold Raw.passes, Raw.inText, Raw.inTag.
    apply blank_query in Hs, Ht. by rewrite Hs, Ht.
Qed.

(** C10, as the code has it: on a collection of template objects the
    all-tags view and the filter do not fail, and they give what the typed
    view of the elements gives, also where [tags], [rules] or [examples] is
    absent; an absent sequence property is read as an empty one would be;
    an object without [tags] adds nothing to the all-tags view and passes
    no tag query that is not blank; blank queries keep every element,
    whatever it is; and on templates the results are those on the
    collection with every absent sequence set to empty. *)
Theorem library_view_absent_fields :
  (∀ xs search tagFilter, Forall (fun v => templateObject v = true) xs →
     Raw.allTags xs = Done (allTags (map ofJson xs))
     ∧ ∃ kept, Raw.filtered xs search tagFilter = Done kept
               ∧ sublist kept xs
               ∧ (∀ v, v ∈ kept ↔
                       v ∈ xs ∧ filtered [ofJson v] search tagFilter = [ofJson v])
               ∧ map ofJson kept = filtered (map ofJson xs) search tagFilter
               ∧ ∀ ms, JObj ms ∈ kept → assoc "tags" ms = None → blank tagFilter)
  ∧ (∀ k ms, k ∈ ["tags"; "rules"; "examples"] → assoc k ms = None →
       (∀ q tg, Raw.passes q tg (withEmpty k ms) = Raw.passes q tg (JObj ms))
       ∧ ∀ xs1 xs2, Raw.allTags (xs1 ++ withEmpty k ms :: xs2)
                    = Raw.allTags (xs1 ++ JObj ms :: xs2))
  ∧ (∀ ms xs1 xs2, assoc "tags" ms = None →
       Raw.allTags (xs1 ++ JObj ms :: xs2) = Raw.allTags (xs1 ++ xs2))
  ∧ (∀ xs search tagFilter, blank search → blank tagFilter →
       Raw.filtered xs search tagFilter = Done xs)
  ∧ (∀ ts search tagFilter,
       filtered (map fillAbsent ts) search tagFilter
       = map fillAbsent (filtered ts search tagFilter))
  ∧ (∀ ts, allTags (map fillAbsent ts) = allTags ts)
  ∧ (∀ i n c k r f e ts1 ts2,
       allTags (ts1 ++ Template.mk i n None c k r f e :: ts2) = allTags (ts1 ++ ts2))
  ∧ (∀ i n c k f ts1 ts2 search tagFilter,
       let t := Template.mk i n None c k None f None in
       (blank search → blank tagFilter →
        t ∈ filtered (ts1 ++ t :: ts2) search tagFilter)
       ∧ (¬ blank tagFilter → t ∉ filtered (ts1 ++ t :: ts2) search tagFilter)).
Proof.
  split; [|split; [|split; [|split; [|split; [|split; [|split]]]]]].
  - intros xs search tagFilter Hxs. split; [by apply allTags_templateObjects|].
    eexists. split; [by apply filtered_templateObjects|].
    split; [apply filter_sublist|]. split; [|split].
    + intros v. rewrite filter_elem_of. unfold filtered. cbn [List.filter].
      destruct (inText _ (ofJson v) && inTag _ (ofJson v)); intuition congruence.
    + unfold filtered. by rewrite filter_map.
    + intros ms [_ Hp]%filter_elem_of Hnone.
      apply andb_true_iff in Hp as [_ Hp]. apply inTag_spec in Hp as [Hb|(x & Hx & _)].
      * done.
      * unfold ofJson in Hx. cbn [getProp Template.tags] in Hx. rewrite Hnone in Hx.
        by apply not_elem_of_nil in Hx.
  - intros k ms Hk Hnone. split.
    + intros q tg. by apply passes_withEmpty.
    + intros xs1 xs2. by apply allTags_same_tags, tagsOf_withEmpty.
  - intros ms xs1 xs2. apply allTags_no_tags.
  - apply filtered_blank.
  - intros ts search tagFilter. unfold filtered. by rewrite filter_map.
  - intros ts. unfold allTags. by rewrite flat_map_map.
  - intros i n c k r f e ts1 ts2. unfold allTags. by rewrite !flat_map_app.
  - intros i n c k f ts1 ts2 search tagFilter t. split.
    + intros Hs Ht. apply elem_of_filtered. split; [|by split; left].
      apply elem_of_app. right. by left.
    + intros Hnb Hin. apply elem_of_filtered in Hin as (_ & _ & [Hb|(x & Hx & _)]).
      * done.
      * by apply not_elem_of_nil in Hx.
Qed.

(** C10, as it is stated, fails: the file [[null]] is an array, so the
    import stores it, with no alert, and on the stored collection the
    all-tags view throws, and so does the filter once there is a query. *)
Lemma import_null_breaks_library_view :
  Raw.importTemplates JSON.parse "[null]" [] = ([JNull], None)
  ∧ Raw.allTags [JNull] = TypeError
  ∧ Raw.filtered [JNull] "brief" "" = TypeError
  ∧ Raw.filtered [JNull] "" "research" = TypeError.
Proof. repeat split. Qed.

(** The seed collection with an object that has only a name put in front:
    the view of the stored array. *)
Example library_view_of_objects :
  let bare := JObj [("name", JStr "Bare")] in
  let xs := bare :: map toJson DEFAULT_TEMPLATES in
  Forall (fun v => templateObject v = true) xs
  ∧ Raw.allTags xs
    = Done ["analysis"; "coding"; "creative"; "ideation"; "research"; "review"]
  ∧ Raw.filtered xs " bare" "" = Done [bare]
  ∧ Raw.filtered xs "" "" = Done xs
  ∧ Raw.filtered xs "" "COD" = Done (map toJson (filtered DEFAULT_TEMPLATES "" "COD"))
  ∧ length (filtered DEFAULT_TEMPLATES "" "COD") = 1%nat.
Proof. repeat split; repeat constructor. Qed.

(** A [tags] that is a string, not an array: the all-tags view takes the
    string for one tag, and the filter throws once there is a tag query. *)
Example library_view_of_string_tags :
  let xs := [JObj [("name", JStr "Bare"); ("tags", JStr "abc")]] in
  Raw.allTags xs = Done ["abc"]
  ∧ Raw.filtered xs "bare" "" = Done xs
  ∧ Raw.filtered xs "" "a" = TypeError.
Proof. repeat split. Qed.

(** ** Storage and import, for any [JSON.parse] *)

Section GatewayProperties.

Variable JSON_parse : string → result json.

Lemma import_throw (contents : string) (st : App.State) (m : string) :
  JSON_parse contents = Throw m →
  App.importTemplates JSON_parse contents st = (st, Some ("Import failed: " +:+ m)).
Proof. intros E. unfold App.importTemplates, App.importData. by rewrite E. Qed.

Lemma import_not_array (contents : string) (st : App.State) (v : json) :
  JSON_parse contents = Ok v → (∀ xs, v ≠ JArr xs) →
  App.importTemplates JSON_parse contents st = (st, Some "Import failed: Invalid file").
Proof.
  intros E Hv. unfold App.importTemplates, App.importData. rewrite E.
  destruct v; try done. by destruct (Hv elements).
Qed.

Lemma import_array (contents : string) (st : App.State) (xs : list json) :
  JSON_parse contents = Ok (JArr xs) →
  App.importTemplates JSON_parse contents st
  = (App.mkState (map ofJson xs) (App.active st) (App.name st) (App.tags st)
       (App.context st) (App.task st) (App.rules st) (App.format st)
       (App.examples st) (App.search st) (App.tagFilter st) (App.showLibrary st),
     None).
Proof. intros E. unfold App.importTemplates, App.importData. by rewrite E. Qed.

(** C4: [importTemplates] fails, with an alert, exactly when the contents
    do not parse or the parsed value is not an array; the alert then reads
    [Import failed: ] followed by the reason (the message of the parse
    error, or [Invalid file]) and the collection, like the whole state, is
    unchanged; on success there is no alert, the stored array is the parsed
    array itself, whatever its elements are, and nothing else changes.  The
    state holds the elements as the templates they read as: a file that
    holds the template objects of a collection leaves that collection. *)
Theorem importTemplates_spec (contents : string) (stored : list json) (st : App.State) :
  let raw := Raw.importTemplates JSON_parse contents stored in
  let r := App.importTemplates JSON_parse contents st in
  (r.2 ≠ None ↔
     (∃ m, JSON_parse contents = Throw m)
     ∨ (∃ v, JSON_parse contents = Ok v ∧ ∀ xs, v ≠ JArr xs))
  ∧ raw.2 = r.2
  ∧ (∀ m, JSON_parse contents = Throw m →
          raw = (stored, Some ("Import failed: " +:+ m))
          ∧ r = (st, Some ("Import failed: " +:+ m)))
  ∧ (∀ v, JSON_parse contents = Ok v → (∀ xs, v ≠ JArr xs) →
          raw = (stored, Some "Import failed: Invalid file")
          ∧ r = (st, Some "Import failed: Invalid file"))
  ∧ (∀ xs, JSON_parse contents = Ok (JArr xs) →
           raw = (xs, None)
           ∧ r.2 = None
           ∧ App.templates r.1 = map ofJson xs
           ∧ (App.active r.1, App.name r.1, App.tags r.1, App.context r.1,
              App.task r.1, App.rules r.1, App.format r.1, App.examples r.1,
              App.search r.1, App.tagFilter r.1, App.showLibrary r.1)
             = (App.active st, App.name st, App.tags st, App.context st,
                App.task st, App.rules st, App.format st, App.examples st,
                App.search st, App.tagFilter st, App.showLibrary st))
  ∧ (∀ ts, JSON_parse contents = Ok (JArr (map toJson ts)) →
           raw.1 = map toJson ts ∧ App.templates r.1 = ts).
Proof.
  intros raw r. subst raw r. split; [|split; [|split; [|split; [|split]]]].
  - destruct (JSON_parse contents) as [v|m] eqn:E.
    + assert ((∃ xs, v = JArr xs) ∨ ∀ xs, v ≠ JArr xs) as [[xs ->]|Hv]
        by (destruct v; eauto).
      * rewrite (import_array _ _ xs E). simpl. split; [done|].
        intros [(m & ?)|(v & [= <-] & Hv)]; [done|]. by destruct (Hv xs).
      * rewrite (import_not_array _ _ v E Hv). simpl. split; [|done].
        intros _. right. eauto.
    + rewrite (import_throw _ _ m E). simpl. split; [|done]. intros _. left. eauto.
  - unfold Raw.importTemplates, App.importTemplates.
    by destruct (App.importData JSON_parse contents).
  - intros m E. split; [|by apply import_throw].
    unfold Raw.importTemplates, App.importData. by rewrite E.
  - intros v E Hv. split; [|by apply (import_not_array _ _ v)].
    unfold Raw.importTemplates, App.importData. rewrite E.
    destruct v; try done. by destruct (Hv elements).
  - intros xs E. rewrite (import_array _ _ xs E). split; [|done].
    unfold Raw.importTemplates, App.importData. by rewrite E.
  - intros ts E. rewrite (import_array _ _ _ E). simpl. split.
    + unfold Raw.importTemplates, App.importData. by rewrite E.
    + apply ofJson_collection.
Qed.

(** C6: the initial collection is the parsed stored value when there is a
    stored value and it parses, and the three seed templates (research,
    code review, brainstorming) when there is none or when parsing throws;
    no error reaches the caller.  [JSON.parse] throws on the empty text. *)
Theorem useLocalStorageTemplates_spec (raw : option string) :
  (∀ v, JSON_parse "" ≠ Ok v) →
  let seed := JArr (map toJson DEFAULT_TEMPLATES) in
  (∀ s v, raw = Some s → JSON_parse s = Ok v →
          App.useLocalStorageTemplates JSON_parse raw = v)
  ∧ (∀ s m, raw = Some s → JSON_parse s = Throw m →
            App.useLocalStorageTemplates JSON_parse raw = seed)
  ∧ (raw = None → App.useLocalStorageTemplates JSON_parse raw = seed)
  ∧ map Template.id DEFAULT_TEMPLATES
    = [Some "research-brief"; Some "code-review"; Some "brainstorm"].
Proof.
  intros Hempty seed. split; [|split; [|split]].
  - intros s v -> Hv. simpl. destruct s as [|c s]; simpl.
    + by destruct (Hempty v).
    + by rewrite Hv.
  - intros s m -> Hm. simpl. destruct s as [|c s]; simpl; [done|]. by rewrite Hm.
  - by intros ->.
  - done.
Qed.

Lemma NoDup_ids_next (now : N) (st : App.State) :
  NoDup (ids (App.templates st)) → NoDup (ids (App.templates (App.saveTemplate now st))).
Proof.
  intros Hnd. unfold App.saveTemplate. simpl.
  destruct (existsb (App.hasId (App.saveId now st)) (App.templates st)) eqn:E.
  - assert (ids (map (fun t => if App.hasId (App.saveId now st) t
                               then App.next now st else t) (App.templates st))
            = ids (App.templates st)) as ->; [|done].
    unfold ids. rewrite map_map. apply map_ext. intros t.
    unfold App.hasId. by case_bool_decide.
  - unfold ids. simpl. constructor; [|done].
    intros Hin. apply list_elem_of_In, in_map_iff in Hin as (t & Hid & Hin).
    assert (existsb (App.hasId (App.saveId now st)) (App.templates st) = true);
      [|congruence].
    apply existsb_hasId. exists t. by rewrite list_elem_of_In.
Qed.

Lemma NoDup_map_filter {A B : Type} (g : A → B) (f : A → bool) (l : list A) :
  NoDup (map g l) → NoDup (map g (List.filter f l)).
Proof.
  induction l as [|x l IH]; simpl; [done|].
  intros [Hx Hl]%NoDup_cons. destruct (f x); simpl; [|auto].
  constructor; [|auto]. intros Hin. apply Hx.
  apply list_elem_of_In, in_map_iff in Hin as (y & Hy & Hin).
  apply filter_In in Hin as [Hin _].
  apply list_elem_of_In, in_map_iff. eauto.
Qed.

(** C7, as the code has it: from a collection with pairwise distinct ids,
    [saveTemplate] and [deleteTemplate] give a collection with pairwise
    distinct ids; [importTemplates] stores the parsed array as it is, so the
    ids after an import are those of the array, and a failed import leaves
    the collection. *)
Theorem unique_ids_preserved (now : N) (confirmed : bool) (t : Template.t)
    (st : App.State) :
  NoDup (ids (App.templates st)) →
  NoDup (ids (App.templates (App.saveTemplate now st)))
  ∧ NoDup (ids (App.templates (App.deleteTemplate confirmed t st)))
  ∧ ∀ contents,
      match App.importData JSON_parse contents with
      | Ok xs =>
          ids (App.templates (App.importTemplates JSON_parse contents st).1)
          = map (fun v => Template.id (ofJson v)) xs
      | Throw _ =>
          App.templates (App.importTemplates JSON_parse contents st).1
          = App.templates st
      end.
Proof.
  intros Hnd. split; [by apply NoDup_ids_next|split].
  - destruct confirmed; [|done].
    rewrite deleteTemplate_templates. by apply NoDup_map_filter.
  - intros contents. unfold App.importTemplates.
    destruct (App.importData JSON_parse contents); simpl; [|done].
    unfold ids. by rewrite map_map.
Qed.

End GatewayProperties.

Lemma useLocalStorageTemplates_spec_witness :
  let seed := JArr (map toJson DEFAULT_TEMPLATES) in
  (∀ s v, Some "{" = Some s → JSON.parse s = Ok v →
          App.useLocalStorageTemplates JSON.parse (Some "{") = v)
  ∧ (∀ s m, Some "{" = Some s → JSON.parse s = Throw m →
            App.useLocalStorageTemplates JSON.parse (Some "{") = seed)
  ∧ (Some "{" = None → App.useLocalStorageTemplates JSON.parse (Some "{") = seed)
  ∧ map Template.id DEFAULT_TEMPLATES
    = [Some "research-brief"; Some "code-review"; Some "brainstorm"].
Proof.
  apply (useLocalStorageTemplates_spec JSON.parse (Some "{")).
  intros v. vm_compute. discriminate.
Defined.

Lemma unique_ids_preserved_witness :
  NoDup (ids (App.templates (App.saveTemplate 1730000000000 seedState)))
  ∧ NoDup (ids (App.templates (App.deleteTemplate true codeTemplate seedState)))
  ∧ ∀ contents,
      match App.importData JSON.parse contents with
      | Ok xs =>
          ids (App.templates (App.importTemplates JSON.parse contents seedState).1)
          = map (fun v => Template.id (ofJson v)) xs
      | Throw _ =>
          App.templates (App.importTemplates JSON.parse contents seedState).1
          = App.templates seedState
      end.
Proof.
  apply (unique_ids_preserved JSON.parse 1730000000000 true codeTemplate seedState).
  compute_done.
Defined.

(** C7, as it is stated, fails for import: the seed collection has
    pairwise distinct ids, and importing a file with two templates under
    one id leaves a collection where an id occurs twice. *)
Lemma import_duplicate_ids :
  NoDup (ids (App.templates seedState))
  ∧ ids (App.templates (App.importTemplates JSON.parse duplicateIdsFile seedState).1)
    = [Some "a"; Some "a"]
  ∧ ¬ NoDup (ids (App.templates
                    (App.importTemplates JSON.parse duplicateIdsFile seedState).1)).
Proof.
  split; [|split].
  - compute_done.
  - reflexivity.
  - vm_compute. intros [Hx _]%NoDup_cons. apply Hx. by left.
Qed.

(** ** The parser always answers *)

Lemma skipWs_length (s : string) :
  (String.length (JSON.skipWs s) ≤ String.length s)%nat.
Proof. induction s as [|c s IH]; simpl; [done|]. destruct (JSON.isWs c); simpl; lia. Qed.

Lemma consChar_Ok (c : ascii) (r : result (string * string)) (str rest : string) :
  JSON.consChar c r = Ok (str, rest) → ∃ str', r = Ok (str', rest).
Proof. destruct r as [[str' rest']|m]; simpl; [|done]. intros [= _ <-]. eauto. Qed.

Lemma consChar_Throw (c : ascii) (r : result (string * string)) (m : string) :
  JSON.consChar c r = Throw m → r = Throw m.
Proof. destruct r as [[str' rest']|m']; simpl; [done|]. by intros [= <-]. Qed.

Lemma parseChars_length (s str r : string) :
  JSON.parseChars s = Ok (str, r) → (String.length r < String.length s)%nat.
Proof.
  remember (String.length s) as n eqn:Hn. revert s str r Hn.
  induction (lt_wf n) as [n _ IH]. intros s str r -> Hp.
  destruct s as [|c s1]; [done|]. cbn [JSON.parseChars] in Hp.
  repeat case_match; simplify_eq; simpl; try lia;
    apply consChar_Ok in Hp as [str' Hp];
    (eapply IH in Hp; [| |reflexivity]; simpl; lia).
Qed.

Lemma parseChars_message (s m : string) :
  JSON.parseChars s = Throw m → m ≠ "Out of fuel".
Proof.
  remember (String.length s) as n eqn:Hn. revert s m Hn.
  induction (lt_wf n) as [n _ IH]. intros s m -> Hp.
  destruct s as [|c s1]; [by simplify_eq/=|]. cbn [JSON.parseChars] in Hp.
  repeat case_match; simplify_eq; try done;
    apply consChar_Throw in Hp;
    (eapply IH in Hp; [done| |reflexivity]; simpl; lia).
Qed.

Lemma spanDigits_length (s d r : string) :
  JSON.spanDigits s = (d, r) → (String.length r ≤ String.length s)%nat.
Proof.
  revert d r. induction s as [|c s IH]; intros d r; simpl.
  - by intros [= _ <-].
  - destruct (JSON.isDigit c).
    + destruct (JSON.spanDigits s) as [d' r'] eqn:E. intros [= _ <-].
      specialize (IH _ _ eq_refl). lia.
    + intros [= _ <-]. simpl. lia.
Qed.

Lemma parseNumber_length (s l r : string) :
  JSON.parseNumber s = Ok (l, r) → (String.length r < String.length s)%nat.
Proof.
  unfold JSON.parseNumber. intros Hp.
  repeat case_match; simplify_eq;
    repeat match goal with
      | H : JSON.spanDigits _ = _ |- _ => apply spanDigits_length in H
      end; simpl in *; lia.
Qed.

Lemma parseNumber_message (s m : string) :
  JSON.parseNumber s = Throw m → m ≠ "Out of fuel".
Proof.
  unfold JSON.parseNumber. intros Hp. repeat case_match; by simplify_eq.
Qed.

Lemma stripPrefix_length (w s r : string) :
  JSON.stripPrefix w s = Some r → (String.length r ≤ String.length s)%nat.
Proof.
  revert s. induction w as [|a w IH]; intros s; simpl.
  - by intros [= ->].
  - destruct s as [|b s]; [done|]. destruct (Ascii.eqb a b); [|done].
    intros Hs%IH. simpl. lia.
Qed.

Lemma expect_length (w : string) (v v' : json) (s r : string) :
  JSON.expect w v s = Ok (v', r) → (String.length r ≤ String.length s)%nat.
Proof.
  unfold JSON.expect. destruct (JSON.stripPrefix w s) as [r'|] eqn:E; [|done].
  intros [= _ <-]. by eapply stripPrefix_length.
Qed.

Lemma expect_message (w : string) (v : json) (s m : string) :
  JSON.expect w v s = Throw m → m ≠ "Out of fuel".
Proof. unfold JSON.expect. destruct (JSON.stripPrefix w s); by intros [= <-]. Qed.

Ltac read_lengths :=
  repeat match goal with
    | H : JSON.parseChars _ = Ok _ |- _ => apply parseChars_length in H
    | H : JSON.parseNumber _ = Ok _ |- _ => apply parseNumber_length in H
    | H : JSON.expect _ _ _ = Ok _ |- _ => apply expect_length in H
    | H : JSON.skipWs ?s = String _ _ |- _ =>
        let L := fresh "L" in
        pose proof (skipWs_length s) as L; rewrite H in L; clear H
    end.

(** A successful call reads at least one character. *)
Lemma parse_consumes (fuel : nat) :
  (∀ s v r, JSON.parseValue fuel s = Ok (v, r) →
            (String.length r < String.length s)%nat)
  ∧ (∀ s vs r, JSON.parseElements fuel s = Ok (vs, r) →
               (String.length r < String.length s)%nat)
  ∧ (∀ s ms r, JSON.parseMembers fuel s = Ok (ms, r) →
               (String.length r < String.length s)%nat).
Proof.
  induction fuel as [|f (IHv & IHe & IHm)]; [by repeat split|].
  split; [|split].
  - intros s v r. cbn [JSON.parseValue]. intros Hp.
    repeat case_match; simplify_eq;
      repeat match goal with
        | H : JSON.parseElements f _ = Ok _ |- _ => apply IHe in H
        | H : JSON.parseMembers f _ = Ok _ |- _ => apply IHm in H
        end; read_lengths; simpl in *; lia.
  - intros s vs r. cbn [JSON.parseElements]. intros Hp.
    repeat case_match; simplify_eq;
      repeat match goal with
        | H : JSON.parseValue f _ = Ok _ |- _ => apply IHv in H
        | H : JSON.parseElements f _ = Ok _ |- _ => apply IHe in H
        end; read_lengths; simpl in *; lia.
  - intros s ms r. cbn [JSON.parseMembers]. intros Hp.
    repeat case_match; simplify_eq;
      repeat match goal with
        | H : JSON.parseValue f _ = Ok _ |- _ => apply IHv in H
        | H : JSON.parseMembers f _ = Ok _ |- _ => apply IHm in H
        end; read_lengths; simpl in *; lia.
Qed.

Ltac read_messages :=
  repeat match goal with
    | H : JSON.parseChars _ = Throw _ |- _ => apply parseChars_message in H
    | H : JSON.parseNumber _ = Throw _ |- _ => apply parseNumber_message in H
    | H : JSON.expect _ _ _ = Throw _ |- _ => apply expect_message in H
    end.

(** Fuel runs out only below twice the length of the text. *)
Lemma parse_out_of_fuel (fuel : nat) :
  (∀ s, JSON.parseValue fuel s = Throw "Out of fuel" →
        (fuel ≤ 2 * String.length s)%nat)
  ∧ (∀ s, JSON.parseElements fuel s = Throw "Out of fuel" →
          (fuel ≤ 2 * String.length s + 1)%nat)
  ∧ (∀ s, JSON.parseMembers fuel s = Throw "Out of fuel" →
          (fuel ≤ 2 * String.length s + 1)%nat).
Proof.
  induction fuel as [|f (IHv & IHe & IHm)]; [repeat split; intros; lia|].
  destruct (parse_consumes f) as (Cv & Ce & Cm).
  split; [|split].
  - intros s. cbn [JSON.parseValue]. intros Hp.
    repeat case_match; simplify_eq; read_messages; try done;
      repeat match goal with
        | H : JSON.parseElements f _ = Throw _ |- _ => apply IHe in H
        | H : JSON.parseMembers f _ = Throw _ |- _ => apply IHm in H
        end; read_lengths; simpl in *; lia.
  - intros s. cbn [JSON.parseElements]. intros Hp.
    repeat case_match; simplify_eq; read_messages; try done;
      repeat match goal with
        | H : JSON.parseValue f _ = Throw _ |- _ => apply IHv in H
        | H : JSON.parseElements f _ = Throw _ |- _ => apply IHe in H
        | H : JSON.parseValue f _ = Ok _ |- _ => apply Cv in H
        end; read_lengths; simpl in *; lia.
  - intros s. cbn [JSON.parseMembers]. intros Hp.
    repeat case_match; simplify_eq; read_messages; try done;
      repeat match goal with
        | H : JSON.parseValue f _ = Throw _ |- _ => apply IHv in H
        | H : JSON.parseMembers f _ = Throw _ |- _ => apply IHm in H
        | H : JSON.parseValue f _ = Ok _ |- _ => apply Cv in H
        end; read_lengths; simpl in *; lia.
Qed.

(** [JSON.parse] never stops for want of fuel: it returns a value or
    throws a syntax error. *)
Lemma parse_fuel_suffices (text : string) : JSON.parse text ≠ Throw "Out of fuel".
Proof.
  unfold JSON.parse. intros Hp.
  destruct (JSON.parseValue (S (2 * String.length text)) text) as [[v r]|m] eqn:E.
  - by destruct (JSON.skipWs r).
  - simplify_eq. apply parse_out_of_fuel in E. lia.
Qed.

(** ** Export then import: the JSON round trip *)

Lemma append_assoc (a b c : string) : (a +:+ b) +:+ c = a +:+ b +:+ c.
Proof. induction a as [|x a IH]; simpl; [done|]. by rewrite IH. Qed.

Lemma append_nil_r (a : string) : a +:+ "" = a.
Proof. induction a as [|x a IH]; simpl; [done|]. by rewrite IH. Qed.

Lemma length_append (a b : string) :
  String.length (a +:+ b) = (String.length a + String.length b)%nat.
Proof. induction a as [|x a IH]; simpl; [done|]. by rewrite IH. Qed.

Lemma parseChars_escapeChar (c : ascii) (tail : string) :
  JSON.parseChars (JSON.escapeChar c +:+ tail) = JSON.consChar c (JSON.parseChars tail).
Proof. by destruct c as [[] [] [] [] [] [] [] []]. Qed.

Lemma parseChars_escape (s rest : string) :
  JSON.parseChars (JSON.escape s +:+ String JSON.DQ rest) = Ok (s, rest).
Proof.
  induction s as [|c s IH]; simpl; [done|].
  by rewrite append_assoc, parseChars_escapeChar, IH.
Qed.

Lemma json_nested_ind (P : json → Prop) :
  P JNull → (∀ b, P (JBool b)) → (∀ l, P (JNum l)) → (∀ s, P (JStr s)) →
  (∀ xs, Forall P xs → P (JArr xs)) →
  (∀ ms, Forall (fun m => P (snd m)) ms → P (JObj ms)) →
  ∀ v, P v.
Proof.
  intros Hnull Hbool Hnum Hstr Harr Hobj.
  refine (fix IH (v : json) : P v :=
            match v with
            | JNull => Hnull
            | JBool b => Hbool b
            | JNum l => Hnum l
            | JStr s => Hstr s
            | JArr xs =>
                Harr xs ((fix all (l : list json) : Forall P l :=
                            match l with
                            | [] => Forall_nil_2 P
                            | x :: l' => Forall_cons_2 P x l' (IH x) (all l')
                            end) xs)
            | JObj ms =>
                Hobj ms ((fix all (l : list (string * json))
                            : Forall (fun m => P (snd m)) l :=
                            match l with
                            | [] => Forall_nil_2 _
                            | m :: l' => Forall_cons_2 _ m l' (IH (snd m)) (all l')
                            end) ms)
            end).
Qed.

Lemma wsOnly_app (a b : string) : wsOnly (a +:+ b) = wsOnly a && wsOnly b.
Proof. induction a as [|x a IH]; simpl; [done|]. by rewrite IH, andb_assoc. Qed.

Lemma skipWs_app (w s : string) : wsOnly w = true → JSON.skipWs (w +:+ s) = JSON.skipWs s.
Proof.
  induction w as [|x w IH]; simpl; [done|].
  intros [Hx Hw]%andb_true_iff. rewrite Hx. auto.
Qed.

Lemma parseValue_ws (fuel : nat) (w s : string) :
  wsOnly w = true → JSON.parseValue fuel (w +:+ s) = JSON.parseValue fuel s.
Proof. intros Hw. destruct fuel; [done|]. simpl. by rewrite skipWs_app. Qed.

Lemma parseValue_space (fuel : nat) (s : string) :
  JSON.parseValue fuel (String " " s) = JSON.parseValue fuel s.
Proof. by apply (parseValue_ws fuel " " s). Qed.

Lemma parseMembers_ws (fuel : nat) (w s : string) :
  wsOnly w = true → JSON.parseMembers fuel (w +:+ s) = JSON.parseMembers fuel s.
Proof. intros Hw. destruct fuel; [done|]. simpl. by rewrite skipWs_app. Qed.

Lemma parseElements_ws (fuel : nat) (w s : string) :
  wsOnly w = true → JSON.parseElements fuel (w +:+ s) = JSON.parseElements fuel s.
Proof. intros Hw. destruct fuel; [done|]. simpl. by rewrite parseValue_ws. Qed.

Lemma serialize_head (indent : string) (v : json) :
  plain v = true →
  ∃ c s, JSON.serialize indent v = String c s
         ∧ JSON.isWs c = false
         ∧ (JS.code c =? 93) = false ∧ (JS.code c =? 125) = false.
Proof.
  destruct v as [| [|] | l | s | [|x xs] | [|m ms]]; simpl; try done; eauto 10.
Qed.

Lemma parseElements_last (f : nat) (s w rest : string) (v : json) :
  JSON.parseValue f s = Ok (v, w +:+ String "]" rest) → wsOnly w = true →
  JSON.parseElements (S f) s = Ok ([v], rest).
Proof. intros Hv Hw. simpl. rewrite Hv. by rewrite skipWs_app. Qed.

Lemma parseElements_more (f : nat) (s tail rest : string) (v : json) (vs : list json) :
  JSON.parseValue f s = Ok (v, String "," tail) →
  JSON.parseElements f tail = Ok (vs, rest) →
  JSON.parseElements (S f) s = Ok (v :: vs, rest).
Proof. intros Hv Hvs. simpl. rewrite Hv. simpl. by rewrite Hvs. Qed.

Lemma join_one (sep a : string) : JS.join sep [a] = a.
Proof. done. Qed.

Lemma join_more (sep a b : string) (l : list string) :
  JS.join sep (a :: b :: l) = a +:+ sep +:+ JS.join sep (b :: l).
Proof. done. Qed.

Lemma elements_parseBack (indent' indent rest : string) (xs : list json) :
  Forall parsesBack xs → forallb plain xs = true →
  wsOnly indent' = true → wsOnly indent = true → xs ≠ [] →
  ∀ fuel, (list_sum (map (fun x => S (size x)) xs) ≤ fuel)%nat →
  JSON.parseElements fuel
    (JS.join ("," +:+ JS.LF +:+ indent') (map (JSON.serialize indent') xs)
     +:+ JS.LF +:+ indent +:+ String "]" rest)
  = Ok (xs, rest).
Proof.
  intros Hall Hplain Hi' Hi. induction xs as [|x xs IH]; [done|]. intros _ fuel Hfuel.
  apply Forall_cons in Hall as [Hx Hall].
  cbn [forallb] in Hplain. apply andb_true_iff in Hplain as [Hpx Hpxs].
  simpl in Hfuel. destruct fuel as [|f]; [lia|].
  destruct xs as [|y ys].
  - cbn [map]. rewrite join_one.
    apply parseElements_last with (w := JS.LF +:+ indent).
    + rewrite append_assoc. apply Hx; [done|done|]. simpl in Hfuel. lia.
    + by rewrite wsOnly_app, Hi.
  - cbn [map]. rewrite join_more, !append_assoc.
    apply parseElements_more with (tail := JS.LF +:+ indent' +:+
        JS.join ("," +:+ JS.LF +:+ indent') (map (JSON.serialize indent') (y :: ys))
        +:+ JS.LF +:+ indent +:+ String "]" rest).
    + apply (Hx Hpx indent' _ f Hi'). lia.
    + rewrite <- (append_assoc JS.LF indent'), parseElements_ws
        by (by rewrite wsOnly_app, Hi').
      apply IH; [done|done|done|]. lia.
Qed.

Lemma quote_app (k tail : string) :
  JSON.quote k +:+ tail = String JSON.DQ (JSON.escape k +:+ String JSON.DQ tail).
Proof. unfold JSON.quote. simpl. by rewrite append_assoc. Qed.

Lemma parseMembers_last (f : nat) (k s w rest : string) (v : json) :
  JSON.parseValue f s = Ok (v, w +:+ String "}" rest) → wsOnly w = true →
  JSON.parseMembers (S f) (JSON.quote k +:+ String ":" s) = Ok ([(k, v)], rest).
Proof.
  intros Hv Hw. rewrite quote_app. simpl. rewrite parseChars_escape. simpl.
  rewrite Hv. by rewrite skipWs_app.
Qed.

Lemma parseMembers_more (f : nat) (k s tail rest : string) (v : json)
    (ms : list (string * json)) :
  JSON.parseValue f s = Ok (v, String "," tail) →
  JSON.parseMembers f tail = Ok (ms, rest) →
  JSON.parseMembers (S f) (JSON.quote k +:+ String ":" s) = Ok ((k, v) :: ms, rest).
Proof.
  intros Hv Hms. rewrite quote_app. simpl. rewrite parseChars_escape. simpl.
  rewrite Hv. simpl. by rewrite Hms.
Qed.

Lemma members_parseBack (indent' indent rest : string) (ms : list (string * json)) :
  Forall (fun m => parsesBack (snd m)) ms →
  forallb (fun m => plain (snd m)) ms = true →
  wsOnly indent' = true → wsOnly indent = true → ms ≠ [] →
  ∀ fuel, (list_sum (map (fun m => S (size (snd m))) ms) ≤ fuel)%nat →
  JSON.parseMembers fuel
    (JS.join ("," +:+ JS.LF +:+ indent')
       (map (fun m => JSON.quote (fst m) +:+ ": " +:+ JSON.serialize indent' (snd m)) ms)
     +:+ JS.LF +:+ indent +:+ String "}" rest)
  = Ok (ms, rest).
Proof.
  intros Hall Hplain Hi' Hi. induction ms as [|[k x] ms IH]; [done|].
  intros _ fuel Hfuel.
  apply Forall_cons in Hall as [Hx Hall]. simpl in Hx.
  cbn [forallb] in Hplain. apply andb_true_iff in Hplain as [Hpx Hpxs]. simpl in Hpx.
  simpl in Hfuel. destruct fuel as [|f]; [lia|].
  destruct ms as [|m' ms'].
  - cbn [map fst snd]. rewrite join_one, !append_assoc.
    apply parseMembers_last with (w := JS.LF +:+ indent).
    + rewrite append_assoc, parseValue_space.
      apply Hx; [done|done|]. simpl in Hfuel. lia.
    + by rewrite wsOnly_app, Hi.
  - cbn [map fst snd]. rewrite join_more, !append_assoc.
    apply parseMembers_more with (tail := JS.LF +:+ indent' +:+
        JS.join ("," +:+ JS.LF +:+ indent')
          (map (fun m => JSON.quote (fst m) +:+ ": " +:+ JSON.serialize indent' (snd m))
             (m' :: ms'))
        +:+ JS.LF +:+ indent +:+ String "}" rest).
    + rewrite parseValue_space.
      apply (Hx Hpx indent' _ f Hi'). lia.
    + rewrite <- (append_assoc JS.LF indent'), parseMembers_ws
        by (by rewrite wsOnly_app, Hi').
      apply IH; [done|done|done|]. lia.
Qed.

Lemma setMember_fresh (k : string) (v : json) (acc : list (string * json)) :
  k ∉ map fst acc → JSON.setMember k v acc = acc ++ [(k, v)].
Proof.
  induction acc as [|[k' v'] acc IH]; simpl; [done|].
  intros [Hne Hk]%not_elem_of_cons.
  destruct (String.eqb_spec k k') as [->|_]; [done|]. by rewrite IH.
Qed.

Lemma fold_setMember (ms acc : list (string * json)) :
  NoDup (map fst (acc ++ ms)) →
  fold_left (fun a m => JSON.setMember (fst m) (snd m) a) ms acc = acc ++ ms.
Proof.
  revert acc. induction ms as [|[k v] ms IH]; intros acc Hnd; simpl.
  - by rewrite app_nil_r.
  - rewrite setMember_fresh.
    + rewrite IH; [by rewrite <- app_assoc|]. by rewrite <- app_assoc.
    + rewrite map_app in Hnd. simpl in Hnd.
      apply NoDup_app in Hnd as (_ & Hd & _). intros Hin.
      apply (Hd k Hin). by left.
Qed.

Lemma buildObject_distinct (ms : list (string * json)) :
  NoDup (map fst ms) → JSON.buildObject ms = JObj ms.
Proof. intros Hnd. unfold JSON.buildObject. by rewrite fold_setMember. Qed.

Lemma join_head (sep a : string) (l : list string) :
  ∃ more, JS.join sep (a :: l) = a +:+ more.
Proof.
  destruct l as [|b l].
  - exists "". by rewrite join_one, append_nil_r.
  - eexists. apply join_more.
Qed.

Lemma parseValue_array (f : nat) (body rest : string) (c : ascii) (s : string)
    (xs : list json) :
  JSON.skipWs body = String c s → (JS.code c =? 93) = false →
  JSON.parseElements f body = Ok (xs, rest) →
  JSON.parseValue (S f) (String "[" body) = Ok (JArr xs, rest).
Proof. intros Hb Hc He. simpl. by rewrite Hb, Hc, He. Qed.

Lemma parseValue_object (f : nat) (body rest : string) (c : ascii) (s : string)
    (ms : list (string * json)) :
  JSON.skipWs body = String c s → (JS.code c =? 125) = false →
  JSON.parseMembers f body = Ok (ms, rest) →
  JSON.parseValue (S f) (String "{" body) = Ok (JSON.buildObject ms, rest).
Proof. intros Hb Hc He. simpl. by rewrite Hb, Hc, He. Qed.

Lemma skipWs_head (c : ascii) (s : string) :
  JSON.isWs c = false → JSON.skipWs (String c s) = String c s.
Proof. intros Hc. simpl. by rewrite Hc. Qed.

Lemma parseValue_serialize (v : json) : parsesBack v.
Proof.
  induction v as [| b | l | s | xs IH | ms IH] using json_nested_ind;
    intros Hplain indent rest fuel Hi Hfuel;
    (destruct fuel as [|f]; [simpl in Hfuel; lia|]).
  - done.
  - by destruct b.
  - done.
  - cbn [JSON.serialize]. rewrite quote_app. simpl. by rewrite parseChars_escape.
  - destruct xs as [|x xs]; [done|].
    cbn [plain] in Hplain. cbn [JSON.serialize]. cbv zeta. rewrite !append_assoc.
    assert (wsOnly (indent +:+ "  ") = true) as Hi' by (by rewrite wsOnly_app, Hi).
    destruct (serialize_head (indent +:+ "  ") x) as (c & s0 & Hs & Hc & Hc1 & _).
    { cbn [forallb] in Hplain. by apply andb_true_iff in Hplain as [? _]. }
    destruct (join_head ("," +:+ JS.LF +:+ indent +:+ "  ")
                (JSON.serialize (indent +:+ "  ") x)
                (map (JSON.serialize (indent +:+ "  ")) xs)) as [more Hmore].
    apply parseValue_array with (c := c) (s := s0 +:+ more +:+ JS.LF +:+ indent +:+ "]" +:+ rest).
    + repeat (rewrite skipWs_app by done).
      cbn [map]. rewrite Hmore, Hs, !append_assoc. by apply skipWs_head.
    + done.
    + repeat (rewrite parseElements_ws by done).
      apply elements_parseBack; [done|done|done|done|done|].
      simpl in Hfuel |- *. lia.
  - destruct ms as [|m ms]; [done|].
    cbn [plain] in Hplain. apply andb_true_iff in Hplain as [Hnd Hplain].
    apply bool_decide_eq_true in Hnd.
    cbn [JSON.serialize]. cbv zeta. rewrite !append_assoc.
    assert (wsOnly (indent +:+ "  ") = true) as Hi' by (by rewrite wsOnly_app, Hi).
    rewrite <- (buildObject_distinct (m :: ms)) by done.
    destruct (join_head ("," +:+ JS.LF +:+ indent +:+ "  ")
                (JSON.quote (fst m) +:+ ": " +:+ JSON.serialize (indent +:+ "  ") (snd m))
                (map (fun m => JSON.quote (fst m) +:+ ": "
                                 +:+ JSON.serialize (indent +:+ "  ") (snd m)) ms))
      as [more Hmore].
    eapply parseValue_object.
    + repeat (rewrite skipWs_app by done).
      cbn [map]. rewrite Hmore, !append_assoc, quote_app. by apply skipWs_head.
    + done.
    + repeat (rewrite parseMembers_ws by done).
      apply members_parseBack; [done|done|done|done|done|].
      simpl in Hfuel |- *. lia.
Qed.

Lemma sizes_le_join {A : Type} (sz : A → nat) (pr : A → string) (sep : string)
    (xs : list A) :
  Forall (fun x => (sz x ≤ S (String.length (pr x)))%nat) xs →
  (2 ≤ String.length sep)%nat →
  (list_sum (map (fun x => S (sz x)) xs) ≤ 2 + String.length (JS.join sep (map pr xs)))%nat.
Proof.
  intros Hall Hsep. induction Hall as [|x xs Hx Hall IH]; [simpl; lia|].
  destruct xs as [|y ys].
  - simpl. lia.
  - cbn [map]. rewrite join_more, !length_append.
    cbn [map] in IH. simpl in IH |- *. lia.
Qed.

Lemma size_le_length (v : json) :
  ∀ indent, (size v ≤ S (String.length (JSON.serialize indent v)))%nat.
Proof.
  induction v as [| b | l | s | xs IH | ms IH] using json_nested_ind; intros indent;
    try (simpl; lia).
  - destruct xs as [|x xs]; [simpl; lia|].
    cbn [JSON.serialize size]. cbv zeta. rewrite !length_append.
    pose proof (sizes_le_join size (JSON.serialize (indent +:+ "  "))
                  ("," +:+ JS.LF +:+ indent +:+ "  ") (x :: xs)) as Hle.
    simpl in Hle |- *. rewrite !length_append in Hle. simpl in Hle.
    assert (Forall (fun x => (size x ≤ S (String.length
              (JSON.serialize (indent +:+ "  ") x)))%nat) (x :: xs)) as Hall.
    { eapply Forall_impl; [exact IH|]. intros y Hy. apply Hy. }
    specialize (Hle Hall). lia.
  - destruct ms as [|m ms]; [simpl; lia|].
    cbn [JSON.serialize size]. cbv zeta. rewrite !length_append.
    pose proof (sizes_le_join (fun m => size (snd m))
                  (fun m => JSON.quote (fst m) +:+ ": "
                              +:+ JSON.serialize (indent +:+ "  ") (snd m))
                  ("," +:+ JS.LF +:+ indent +:+ "  ") (m :: ms)) as Hle.
    simpl in Hle |- *. rewrite !length_append in Hle. simpl in Hle.
    assert (Forall (fun m => (size (snd m) ≤ S (String.length
              (JSON.quote (fst m) +:+ ": "
                 +:+ JSON.serialize (indent +:+ "  ") (snd m))))%nat) (m :: ms)) as Hall.
    { eapply Forall_impl; [exact IH|]. intros y Hy. simpl.
      rewrite !length_append. specialize (Hy (indent +:+ "  ")). simpl. lia. }
    specialize (Hle Hall). lia.
Qed.

(** Parsing the pretty-printed text of a plain value gives the value back. *)
Lemma parse_stringify2 (v : json) :
  plain v = true → JSON.parse (JSON.stringify2 v) = Ok v.
Proof.
  intros Hplain. unfold JSON.parse, JSON.stringify2.
  pose proof (parseValue_serialize v Hplain "" ""
                (S (2 * String.length (JSON.serialize "" v))) eq_refl) as Hp.
  rewrite append_nil_r in Hp. rewrite Hp; [done|].
  pose proof (size_le_length v ""). lia.
Qed.

Lemma plain_strings (l : list string) : plain (strings l) = true.
Proof. unfold strings. simpl. induction l as [|x l IH]; simpl; auto. Qed.

Lemma plain_toJson (t : Template.t) : plain (toJson t) = true.
Proof.
  destruct t as [[i|] [n|] [tg|] [c|] [k|] [r|] [f|] [e|]];
    unfold toJson; cbn -[plain strings bool_decide]; cbn [plain];
    apply andb_true_iff; (split; [by apply bool_decide_eq_true; compute_done|]);
    cbn -[plain strings]; by rewrite ?plain_strings.
Qed.

Lemma plain_collection (ts : list Template.t) : plain (JArr (map toJson ts)) = true.
Proof.
  cbn [plain]. induction ts as [|t ts IH]; [done|].
  cbn [map forallb]. by rewrite plain_toJson, IH.
Qed.

(** C8: the file [exportTemplates] writes for a collection parses back to
    the array of its template objects, and importing it, into any state,
    raises no alert and leaves as the collection the exported templates, in
    the same order and with the same field values. *)
Theorem import_export_roundtrip (st st0 : App.State) :
  let r := App.importTemplates JSON.parse (App.exportTemplates st) st0 in
  JSON.parse (App.exportTemplates st) = Ok (JArr (map toJson (App.templates st)))
  ∧ r.2 = None
  ∧ App.templates r.1 = App.templates st.
Proof.
  intros r.
  assert (JSON.parse (App.exportTemplates st)
          = Ok (JArr (map toJson (App.templates st)))) as Hparse.
  { unfold App.exportTemplates. apply parse_stringify2, plain_collection. }
  split; [done|]. subst r.
  rewrite (import_array JSON.parse _ st0 _ Hparse). simpl.
  by rewrite ofJson_collection.
Qed.

Example export_seed_first_lines :
  String.substring 0 33 (App.exportTemplates seedState)
  = "[" +:+ JS.LF +:+ "  {" +:+ JS.LF +:+ "    " +:+ JSON.quote "id" +:+ ": "
        +:+ JSON.quote "research-brief" +:+ ",".
Proof. reflexivity. Qed.

(** * The rest of the component *)

(** ** White space and lines *)

Lemma trimStart_head (s : string) :
  JS.trimStart s = "" ∨ ∃ c r, JS.trimStart s = String c r ∧ JS.isWhiteSpace c = false.
Proof.
  induction s as [|c s IH]; simpl; [by left|].
  destruct (JS.isWhiteSpace c) eqn:E; [done|]. right. eauto.
Qed.

Lemma trimStart_keeps (c : ascii) (r : string) :
  JS.isWhiteSpace c = false → JS.trimStart (String c r) = String c r.
Proof. intros E. simpl. by rewrite E. Qed.

Lemma trimEnd_head (c : ascii) (r : string) :
  JS.isWhiteSpace c = false → ∃ r', JS.trimEnd (String c r) = String c r'.
Proof. intros E. simpl. rewrite E. destruct (JS.trimEnd r); eauto. Qed.

Lemma trimEnd_idem (s : string) : JS.trimEnd (JS.trimEnd s) = JS.trimEnd s.
Proof.
  induction s as [|c s IH]; simpl; [done|].
  destruct (JS.trimEnd s) as [|d r] eqn:E.
  - destruct (JS.isWhiteSpace c) eqn:Ec; simpl; [done|]. by rewrite Ec.
  - simpl. simpl in IH. by rewrite IH.
Qed.

(** Trimming what is trimmed changes nothing. *)
Lemma trim_idem (s : string) : JS.trim (JS.trim s) = JS.trim s.
Proof.
  unfold JS.trim. destruct (trimStart_head s) as [->|(c & r & -> & Ec)]; [done|].
  destruct (trimEnd_head c r Ec) as [r' Hr]. rewrite Hr at 1.
  rewrite trimStart_keeps by done. rewrite <- Hr. apply trimEnd_idem.
Qed.

Lemma chars_trimStart (s : string) (c : ascii) :
  c ∈ list_ascii_of_string (JS.trimStart s) → c ∈ list_ascii_of_string s.
Proof.
  induction s as [|d s IH]; simpl; [done|].
  destruct (JS.isWhiteSpace d); [|done]. intros Hc. right. auto.
Qed.

Lemma chars_trimEnd (s : string) (c : ascii) :
  c ∈ list_ascii_of_string (JS.trimEnd s) → c ∈ list_ascii_of_string s.
Proof.
  induction s as [|d s IH]; simpl; [done|].
  destruct (JS.trimEnd s) as [|e r] eqn:E.
  - destruct (JS.isWhiteSpace d); simpl; [by intros ?%elem_of_nil|].
    intros [->|?%elem_of_nil]%elem_of_cons; [by left|done].
  - simpl. intros [->|Hc]%elem_of_cons; [by left|]. right. by apply IH.
Qed.

Lemma chars_trim (s : string) (c : ascii) :
  c ∈ list_ascii_of_string (JS.trim s) → c ∈ list_ascii_of_string s.
Proof. unfold JS.trim. intros H. by apply chars_trimStart, chars_trimEnd. Qed.

Lemma split_pieces (sep : ascii) (s : string) :
  ∃ piece pieces, split sep s = piece :: pieces.
Proof.
  induction s as [|c s (p & ps & IH)]; simpl; [eauto|].
  destruct (Ascii.eqb c sep); [eauto|]. rewrite IH. eauto.
Qed.

Lemma split_no_separator (sep : ascii) (s : string) :
  Forall (fun piece => sep ∉ list_ascii_of_string piece) (split sep s).
Proof.
  induction s as [|c s IH]; simpl.
  - constructor; [apply not_elem_of_nil|constructor].
  - destruct (Ascii.eqb_spec c sep) as [->|Hne].
    + constructor; [apply not_elem_of_nil|done].
    + destruct (split sep s) as [|p ps]; simpl.
      * constructor; [|constructor]. simpl. by intros [?|?%elem_of_nil]%elem_of_cons.
      * apply Forall_cons in IH as [Hp Hps]. constructor; [|done].
        simpl. by intros [?|?]%elem_of_cons.
Qed.

Lemma split_whole (sep : ascii) (s : string) :
  sep ∉ list_ascii_of_string s → split sep s = [s].
Proof.
  induction s as [|c s IH]; simpl; [done|].
  intros [Hne Hs]%not_elem_of_cons.
  destruct (Ascii.eqb_spec c sep) as [->|_]; [done|]. by rewrite IH.
Qed.

Lemma split_first (sep : ascii) (a b : string) :
  sep ∉ list_ascii_of_string a →
  split sep (a +:+ String sep b) = a :: split sep b.
Proof.
  induction a as [|c a IH]; simpl.
  - intros _. by rewrite Ascii.eqb_refl.
  - intros [Hne Ha]%not_elem_of_cons.
    destruct (Ascii.eqb_spec c sep) as [->|_]; [done|]. by rewrite IH.
Qed.

Lemma split_join (sep : ascii) (items : list string) :
  items ≠ [] →
  Forall (fun x => sep ∉ list_ascii_of_string x) items →
  split sep (JS.join (String sep "") items) = items.
Proof.
  intros Hne Hall. induction Hall as [|x items Hx Hall IH]; [done|].
  destruct items as [|y items].
  - by apply split_whole.
  - change (JS.join (String sep "") (x :: y :: items))
      with (x +:+ String sep (JS.join (String sep "") (y :: items))).
    rewrite split_first by done. by rewrite IH.
Qed.

Lemma onChange_text (items : list string) :
  Forall (fun x => x ≠ "" ∧ JS.trim x = x ∧ "010"%char ∉ list_ascii_of_string x) items →
  MultiLineList.onChange (MultiLineList.text items) = items.
Proof.
  intros Hall. unfold MultiLineList.onChange, MultiLineList.text, JS.LF.
  destruct items as [|x items]; [done|].
  rewrite (split_join "010" (x :: items)); [|done|].
  - induction Hall as [|y l (Hy & Ht & _) Hall IH]; [done|].
    cbn [map List.filter]. rewrite Ht. destruct y; [done|]. simpl. by rewrite IH.
  - eapply Forall_impl; [exact Hall|]. by intros y (_ & _ & ?).
Qed.

Lemma onChange_items (value : string) :
  Forall (fun x => x ≠ "" ∧ JS.trim x = x ∧ "010"%char ∉ list_ascii_of_string x)
    (MultiLineList.onChange value).
Proof.
  unfold MultiLineList.onChange.
  pose proof (split_no_separator "010" value) as Hall.
  induction Hall as [|p ps Hp Hall IH]; [constructor|].
  cbn [map List.filter]. destruct (JS.truthy (JS.trim p)) eqn:E; [|done].
  constructor; [|done]. split; [by destruct (JS.trim p)|]. split; [apply trim_idem|].
  intros Hc. by apply Hp, chars_trim.
Qed.

Lemma filter_all' {A : Type} (f : A → bool) (l : list A) :
  Forall (fun x => f x = true) l → List.filter f l = l.
Proof. induction 1 as [|x l Hx _ IH]; simpl; [done|]. by rewrite Hx, IH. Qed.

(** X1: whatever is typed into a [MultiLineList], the items handed on are
    never empty, carry no white space at either end and no line break; and
    typing nothing more into the text the list then shows hands on the same
    items. *)
Theorem MultiLineList_items_clean (value : string) :
  Forall (fun x => x ≠ "" ∧ JS.trim x = x ∧ "010"%char ∉ list_ascii_of_string x)
    (MultiLineList.onChange value)
  ∧ MultiLineList.onChange (MultiLineList.text (MultiLineList.onChange value))
    = MultiLineList.onChange value.
Proof. split; [apply onChange_items|apply onChange_text, onChange_items]. Qed.

(** X2: items that are not empty, are trimmed and hold no line break come
    back unchanged from the text a [MultiLineList] shows for them. *)
Theorem MultiLineList_round_trip (items : list string) :
  Forall (fun x => x ≠ "" ∧ JS.trim x = x ∧ "010"%char ∉ list_ascii_of_string x) items →
  MultiLineList.onChange (MultiLineList.text items) = items.
Proof. apply onChange_text. Qed.

Lemma MultiLineList_round_trip_witness :
  MultiLineList.onChange (MultiLineList.text ["Be concise"; "Cite sources"])
  = ["Be concise"; "Cite sources"].
Proof.
  apply MultiLineList_round_trip.
  repeat constructor; try done; vm_compute; intros H; by repeat (apply elem_of_cons in H as [H|H]; [done|]); apply elem_of_nil in H.
Defined.

(** ** Tags *)

Lemma add_blank (t : string) (st : TagInput.State) :
  blank t → TagInput.add t st = st.
Proof. unfold blank, TagInput.add. by intros ->. Qed.

Lemma add_tags (t : string) (st : TagInput.State) :
  ¬ blank t →
  TagInput.add t st
  = TagInput.mkState
      (if bool_decide (JS.trim t ∈ TagInput.tags st) then TagInput.tags st
       else TagInput.tags st ++ [JS.trim t]) "".
Proof. unfold blank, TagInput.add. by destruct (JS.trim t). Qed.

(** X3: [add] keeps the tags free of duplicates, keeps every tag that was
    there in its place, and never adds a blank tag: a blank entry changes
    nothing, and any other entry ends up among the tags, trimmed, with the
    entry box cleared. *)
Theorem TagInput_add_spec (t : string) (st : TagInput.State) :
  NoDup (TagInput.tags st) →
  NoDup (TagInput.tags (TagInput.add t st))
  ∧ (TagInput.tags st `prefix_of` TagInput.tags (TagInput.add t st))
  ∧ (∀ x, x ∈ TagInput.tags (TagInput.add t st) →
          x ∈ TagInput.tags st ∨ (x = JS.trim t ∧ x ≠ ""))
  ∧ (blank t → TagInput.add t st = st)
  ∧ (¬ blank t →
     JS.trim t ∈ TagInput.tags (TagInput.add t st)
     ∧ TagInput.entry (TagInput.add t st) = "").
Proof.
  intros Hnd. destruct (decide (blank t)) as [Hb|Hb].
  - rewrite (add_blank t st Hb). repeat split; auto; done.
  - rewrite (add_tags t st Hb). simpl. case_bool_decide as Hin.
    + repeat split; auto; done.
    + split; [|split; [|split; [|split]]].
      * apply NoDup_app. repeat split; [done| |apply NoDup_singleton].
        intros x Hx ->%list_elem_of_singleton. done.
      * by apply prefix_app_r.
      * intros x [?|Hx]%elem_of_app; [by left|].
        apply list_elem_of_singleton in Hx as ->. right. split; [done|]. exact Hb.
      * done.
      * intros _. split; [|done]. apply elem_of_app. right. by left.
Qed.

Lemma TagInput_add_spec_witness :
  NoDup (TagInput.tags (TagInput.add " review " (TagInput.mkState ["coding"] "x")))
  ∧ (["coding"] `prefix_of`
       TagInput.tags (TagInput.add " review " (TagInput.mkState ["coding"] "x")))
  ∧ (∀ x, x ∈ TagInput.tags (TagInput.add " review " (TagInput.mkState ["coding"] "x")) →
          x ∈ ["coding"] ∨ (x = JS.trim " review " ∧ x ≠ ""))
  ∧ (blank " review " →
     TagInput.add " review " (TagInput.mkState ["coding"] "x") = TagInput.mkState ["coding"] "x")
  ∧ (¬ blank " review " →
     JS.trim " review " ∈ TagInput.tags (TagInput.add " review " (TagInput.mkState ["coding"] "x"))
     ∧ TagInput.entry (TagInput.add " review " (TagInput.mkState ["coding"] "x")) = "").
Proof.
  apply (TagInput_add_spec " review " (TagInput.mkState ["coding"] "x")).
  simpl. apply NoDup_singleton.
Defined.

(** X4: [remove] takes out every occurrence of the tag and leaves the other
    tags in order, still free of duplicates, and the entry box alone;
    removing a tag that [add] has just appended gives the tags back. *)
Theorem TagInput_remove_spec (t : string) (st : TagInput.State) :
  (t ∉ TagInput.tags (TagInput.remove t st))
  ∧ (∀ x, x ≠ t → x ∈ TagInput.tags (TagInput.remove t st) ↔ x ∈ TagInput.tags st)
  ∧ sublist (TagInput.tags (TagInput.remove t st)) (TagInput.tags st)
  ∧ (NoDup (TagInput.tags st) → NoDup (TagInput.tags (TagInput.remove t st)))
  ∧ TagInput.entry (TagInput.remove t st) = TagInput.entry st
  ∧ (JS.trim t ∉ TagInput.tags st → ¬ blank t →
     TagInput.tags (TagInput.remove (JS.trim t) (TagInput.add t st)) = TagInput.tags st).
Proof.
  unfold TagInput.remove. simpl. split; [|split; [|split; [|split; [|split]]]].
  - rewrite filter_elem_of, negb_true_iff, bool_decide_eq_false. by intros [_ ?].
  - intros x Hx. rewrite filter_elem_of, negb_true_iff, bool_decide_eq_false.
    by split; [intros [? _]|].
  - apply filter_sublist.
  - intros Hnd. exact (sublist_NoDup _ _ Hnd (filter_sublist _ _)).
  - done.
  - intros Hin Hb. rewrite (add_tags t st Hb). simpl.
    rewrite bool_decide_eq_false_2 by done.
    rewrite List.filter_app. simpl. rewrite bool_decide_eq_true_2 by done. simpl.
    rewrite app_nil_r. apply filter_all'. clear Hb.
    induction (TagInput.tags st) as [|y l IH]; [constructor|].
    apply not_elem_of_cons in Hin as [Hne Hin]. constructor; [|auto].
    by apply negb_true_iff, bool_decide_eq_false.
Qed.

(** ** Saving, again and after other actions *)

Lemma hasId_next (now : N) (st : App.State) :
  App.hasId (App.saveId now st) (App.next now st) = true.
Proof. unfold App.hasId. by apply bool_decide_eq_true. Qed.

Lemma existsb_false_Forall {A : Type} (f : A → bool) (l : list A) :
  existsb f l = false → Forall (fun x => f x = false) l.
Proof.
  induction l as [|x l IH]; simpl; [constructor|].
  intros [Hx Hl]%orb_false_iff. constructor; auto.
Qed.

Lemma replace_unchanged (i : string) (nxt : Template.t) (ts : list Template.t) :
  Forall (fun t => App.hasId i t = true → t = nxt) ts →
  map (fun t => if App.hasId i t then nxt else t) ts = ts.
Proof.
  induction 1 as [|t ts Ht _ IH]; simpl; [done|]. rewrite IH.
  destruct (App.hasId i t) eqn:E; [|done]. by rewrite Ht.
Qed.

(** The collection after a save: every template under the saved id is the
    saved one. *)
Lemma saved_under_id (now : N) (st : App.State) :
  Forall (fun t => App.hasId (App.saveId now st) t = true → t = App.next now st)
    (App.templates (App.saveTemplate now st)).
Proof.
  unfold App.saveTemplate. simpl.
  destruct (existsb (App.hasId (App.saveId now st)) (App.templates st)) eqn:E.
  - apply Forall_forall. intros t Hin%list_elem_of_In%in_map_iff.
    destruct Hin as (u & <- & _). destruct (App.hasId _ u) eqn:Eu; [done|].
    intros ?. congruence.
  - constructor; [done|]. apply existsb_false_Forall in E.
    eapply Forall_impl; [exact E|]. intros t Ht ?. congruence.
Qed.

Lemma next_in_saved (now : N) (st : App.State) :
  App.next now st ∈ App.templates (App.saveTemplate now st).
Proof.
  unfold App.saveTemplate. simpl.
  destruct (existsb (App.hasId (App.saveId now st)) (App.templates st)) eqn:E.
  - apply existsb_exists in E as (u & Hu & Eu).
    apply list_elem_of_In, in_map_iff. exists u. by rewrite Eu.
  - by left.
Qed.

(** X5: saving twice is saving once: the second save, whenever it
    happens, reuses the id of the first and leaves the state as it was. *)
Theorem saveTemplate_idempotent (now later : N) (st : App.State) :
  App.saveTemplate later (App.saveTemplate now st) = App.saveTemplate now st.
Proof.
  assert (App.saveId later (App.saveTemplate now st) = App.saveId now st) as Hid.
  { unfold App.saveId at 1. by rewrite linkedId_saveTemplate. }
  assert (App.next later (App.saveTemplate now st) = App.next now st) as Hnext.
  { unfold App.next at 1. by rewrite Hid. }
  unfold App.saveTemplate at 1. rewrite Hid, Hnext.
  assert (existsb (App.hasId (App.saveId now st))
            (App.templates (App.saveTemplate now st)) = true) as ->.
  { apply existsb_exists. exists (App.next now st).
    split; [apply list_elem_of_In, next_in_saved|apply hasId_next]. }
  rewrite replace_unchanged by apply saved_under_id.
  by destruct st.
Qed.

(** X6: after a save the collection holds the saved template, every
    template it holds under the saved id is that template, and it has at
    most one template more than before. *)
Theorem saveTemplate_lookup (now : N) (st : App.State) :
  let st' := App.saveTemplate now st in
  App.next now st ∈ App.templates st'
  ∧ (∀ t, t ∈ App.templates st' → Template.id t = Some (App.saveId now st) →
          t = App.next now st)
  ∧ (length (App.templates st) ≤ length (App.templates st')
     ≤ S (length (App.templates st)))%nat.
Proof.
  intros st'. split; [apply next_in_saved|split].
  - intros t Hin Hid. pose proof (saved_under_id now st) as Hall.
    rewrite Forall_forall in Hall. apply (Hall t Hin).
    unfold App.hasId. by apply bool_decide_eq_true.
  - subst st'. unfold App.saveTemplate. simpl.
    destruct (existsb _ _); simpl; rewrite ?length_map; lia.
Qed.

Lemma NoDup_map_inj {A B : Type} (g : A → B) (l : list A) (x y : A) :
  NoDup (map g l) → x ∈ l → y ∈ l → g x = g y → x = y.
Proof.
  induction l as [|z l IH]; simpl; [by intros _ ?%elem_of_nil|].
  intros [Hz Hl]%NoDup_cons [->|Hx]%elem_of_cons [->|Hy]%elem_of_cons Hg; auto.
  - destruct Hz. rewrite Hg. apply list_elem_of_In, in_map, list_elem_of_In, Hy.
  - destruct Hz. rewrite <- Hg. apply list_elem_of_In, in_map, list_elem_of_In, Hx.
Qed.

Lemma filter_replace (i : string) (nxt : Template.t) (ts : list Template.t) :
  Template.id nxt = Some i →
  List.filter (fun x => negb (bool_decide (Template.id x = Some i)))
    (map (fun t => if App.hasId i t then nxt else t) ts)
  = List.filter (fun x => negb (bool_decide (Template.id x = Some i))) ts.
Proof.
  intros Hid. induction ts as [|t ts IH]; [done|]. cbn [map List.filter].
  rewrite IH. unfold App.hasId. destruct (bool_decide (Template.id t = Some i)) eqn:E.
  - by rewrite bool_decide_eq_true_2.
  - by rewrite E.
Qed.

(** X7: deleting the template that was just saved takes every template
    under its id out of the collection as it was before the save, and
    leaves an unsaved new draft with every field empty; where the id was
    new to the collection, the collection is as before the save. *)
Theorem delete_after_save (now : N) (st : App.State) :
  let st' := App.deleteTemplate true (App.next now st) (App.saveTemplate now st) in
  st' = App.mkState
          (List.filter
             (fun x => negb (bool_decide (Template.id x = Some (App.saveId now st))))
             (App.templates st))
          None "" [] "" "" [] "" [] (App.search st) (App.tagFilter st)
          (App.showLibrary st)
  ∧ ((∀ t, t ∈ App.templates st → Template.id t ≠ Some (App.saveId now st)) →
     App.templates st' = App.templates st).
Proof.
  intros st'.
  assert (st' = App.mkState
          (List.filter
             (fun x => negb (bool_decide (Template.id x = Some (App.saveId now st))))
             (App.templates st))
          None "" [] "" "" [] "" [] (App.search st) (App.tagFilter st)
          (App.showLibrary st)) as Hst.
  { subst st'. unfold App.deleteTemplate, App.saveTemplate. simpl.
    rewrite bool_decide_eq_true_2 by done. unfold App.resetEditor. simpl. f_equal.
    destruct (existsb (App.hasId (App.saveId now st)) (App.templates st)) eqn:E.
    - by apply filter_replace.
    - simpl. by rewrite bool_decide_eq_true_2. }
  split; [done|]. intros Hfresh. rewrite Hst. simpl. apply filter_all'.
  apply Forall_forall. intros t Hin.
  apply negb_true_iff, bool_decide_eq_false. by apply Hfresh.
Qed.

(** X8: using a template of the collection and saving at once, with no
    edit in between, changes nothing in the collection, provided the ids
    are pairwise distinct and the template has the shape [saveTemplate]
    writes: an id that is not empty and not [unsaved], a name that is not
    empty, and every other field present. *)
Theorem save_after_apply (now : N) (st : App.State)
    (i n c k f : string) (tg r e : list string) :
  let t := Template.mk (Some i) (Some n) (Some tg) (Some c) (Some k) (Some r)
             (Some f) (Some e) in
  i ≠ "" → i ≠ "unsaved" → n ≠ "" →
  t ∈ App.templates st → NoDup (ids (App.templates st)) →
  App.next now (App.applyTemplate t st) = t
  ∧ App.templates (App.saveTemplate now (App.applyTemplate t st)) = App.templates st
  ∧ App.active (App.saveTemplate now (App.applyTemplate t st)) = Some t.
Proof.
  intros t Hi Hu Hn Hin Hnd.
  assert (App.saveId now (App.applyTemplate t st) = i) as Hid.
  { unfold App.saveId.
    assert (App.linkedId (App.applyTemplate t st) = Some i) as ->; [|done].
    apply linkedId_Some. by exists t. }
  assert (App.next now (App.applyTemplate t st) = t) as Hnext.
  { unfold App.next. rewrite Hid. subst t. simpl.
    destruct n; [done|]. by destruct c, k, f. }
  split; [done|]. unfold App.saveTemplate. rewrite Hid, Hnext. simpl.
  split; [|done].
  assert (existsb (App.hasId i) (App.templates st) = true) as ->.
  { apply existsb_hasId. by exists t. }
  apply replace_unchanged. apply Forall_forall. intros u Hu' Hid'.
  unfold App.hasId in Hid'. apply bool_decide_eq_true in Hid'.
  apply (NoDup_map_inj Template.id (App.templates st)); [done|done|done|].
  by rewrite Hid'.
Qed.

Lemma save_after_apply_witness :
  let t := Template.mk (Some "brainstorm") (Some "Brainstorming")
             (Some ["ideation"; "creative"])
             (Some "You are a creative partner producing unconventional but feasible ideas.")
             (Some "Generate options that vary by complexity, cost, and risk.")
             (Some ["List pros/cons for each idea."; "Include one weird but plausible idea."])
             (Some "Table: Idea, Rationale, Pros, Cons, Next Step")
             (Some ["Example: Growth ideas for a niche DeFi analytics tool."]) in
  App.next 1730000000000 (App.applyTemplate t seedState) = t
  ∧ App.templates (App.saveTemplate 1730000000000 (App.applyTemplate t seedState))
    = App.templates seedState
  ∧ App.active (App.saveTemplate 1730000000000 (App.applyTemplate t seedState)) = Some t.
Proof.
  apply (save_after_apply 1730000000000 seedState "brainstorm" "Brainstorming"
           "You are a creative partner producing unconventional but feasible ideas."
           "Generate options that vary by complexity, cost, and risk."
           "Table: Idea, Rationale, Pros, Cons, Next Step"
           ["ideation"; "creative"]
           ["List pros/cons for each idea."; "Include one weird but plausible idea."]
           ["Example: Growth ideas for a niche DeFi analytics tool."]);
    [done|done|done|compute_done|compute_done].
Defined.

(** X9: New and then Save gives an unsaved draft a minted id, the decimal
    text of the time, and the name [Untitled]; unless the collection
    already holds that id, the empty template goes to its front and nothing
    else changes in it.  The preview of the new draft is empty. *)
Theorem save_after_new (now : N) (st : App.State) :
  let untitled :=
    Template.mk (Some (JS.numberToString now)) (Some "Untitled") (Some []) (Some "")
      (Some "") (Some []) (Some "") (Some []) in
  let st' := App.saveTemplate now (App.newTemplate st) in
  App.assembled (App.newTemplate st) = ""
  ∧ App.active st' = Some untitled
  ∧ untitled ∈ App.templates st'
  ∧ ((∀ t, t ∈ App.templates st → Template.id t ≠ Some (JS.numberToString now)) →
     App.templates st' = untitled :: App.templates st).
Proof.
  intros untitled st'. split; [done|].
  assert (App.next now (App.newTemplate st) = untitled) as Hnext by done.
  split; [done|]. split.
  - rewrite <- Hnext. apply next_in_saved.
  - intros Hfresh. subst st'. unfold App.saveTemplate. rewrite Hnext.
    change (App.saveId now (App.newTemplate st)) with (JS.numberToString now).
    change (App.templates (App.newTemplate st)) with (App.templates st). simpl.
    destruct (existsb (App.hasId (JS.numberToString now)) (App.templates st)) eqn:E;
      [|done].
    apply existsb_hasId in E as (t & Hin & Hid). by destruct (Hfresh t Hin).
Qed.

(** X10: deleting a template whose id no template of the collection
    carries, and the draft is not linked to, changes nothing. *)
Theorem delete_absent (t : Template.t) (st : App.State) :
  (∀ x, x ∈ App.templates st → Template.id x ≠ Template.id t) →
  App.activeId st ≠ Template.id t →
  App.deleteTemplate true t st = st.
Proof.
  intros Hfresh Hact. unfold App.deleteTemplate. simpl.
  rewrite bool_decide_eq_false_2 by done.
  rewrite filter_all'; [by destruct st|].
  apply Forall_forall. intros x Hin.
  apply negb_true_iff, bool_decide_eq_false. by apply Hfresh.
Qed.

Lemma delete_absent_witness :
  App.deleteTemplate true codeTemplate seedState = seedState.
Proof.
  apply delete_absent; [|done].
  intros x Hx. vm_compute in Hx.
  repeat (apply elem_of_cons in Hx as [->|Hx]; [done|]). by apply elem_of_nil in Hx.
Defined.

(** ** The tag chips and the filter *)

Lemma elem_of_uniq (seen xs : list string) (x : string) :
  x ∈ JS.uniq seen xs ↔ x ∈ xs ∧ x ∉ seen.
Proof.
  revert seen. induction xs as [|y xs IH]; intros seen; simpl.
  - rewrite elem_of_nil. tauto.
  - case_bool_decide as Hy; rewrite ?elem_of_cons, IH, ?elem_of_cons.
    + intuition congruence.
    + destruct (decide (x = y)); intuition congruence.
Qed.

Lemma NoDup_uniq (seen xs : list string) : NoDup (JS.uniq seen xs).
Proof.
  revert seen. induction xs as [|y xs IH]; intros seen; simpl; [constructor|].
  case_bool_decide; [apply IH|]. constructor; [|apply IH].
  rewrite elem_of_uniq. intros [_ Hy]. apply Hy. by left.
Qed.

Lemma elem_of_flat_map {A B : Type} (f : A → list B) (l : list A) (y : B) :
  y ∈ flat_map f l ↔ ∃ x, x ∈ l ∧ y ∈ f x.
Proof.
  rewrite list_elem_of_In, in_flat_map. split; intros (x & Hx & Hy); exists x.
  - by rewrite !list_elem_of_In.
  - by rewrite <- !list_elem_of_In.
Qed.

Lemma elem_of_allTags (ts : list Template.t) (x : string) :
  x ∈ allTags ts ↔ ∃ t, t ∈ ts ∧ x ∈ JS.orEmpty (Template.tags t).
Proof.
  unfold allTags, JS.sort. rewrite merge_sort_Permutation, elem_of_uniq, elem_of_flat_map.
  split; [by intros [? _]|]. intros H. split; [done|]. apply not_elem_of_nil.
Qed.

(** X11: the tag chips are the tags of the collection: every tag of every
    template and nothing else, each once, in ascending code unit order. *)
Theorem allTags_spec (ts : list Template.t) :
  (∀ x, x ∈ allTags ts ↔ ∃ t, t ∈ ts ∧ x ∈ JS.orEmpty (Template.tags t))
  ∧ NoDup (allTags ts)
  ∧ Sorted String.le (allTags ts).
Proof.
  split; [apply elem_of_allTags|split].
  - unfold allTags, JS.sort. rewrite merge_sort_Permutation. apply NoDup_uniq.
  - unfold allTags, JS.sort. apply (Sorted_merge_sort String.le).
Qed.

Lemma trimStart_suffix (s : string) : ∃ pre, s = pre +:+ JS.trimStart s.
Proof.
  induction s as [|c s [pre IH]]; simpl; [by exists ""|].
  destruct (JS.isWhiteSpace c); [|by exists ""].
  exists (String c pre). simpl. by rewrite <- IH.
Qed.

Lemma trimEnd_prefix (s : string) : ∃ post, s = JS.trimEnd s +:+ post.
Proof.
  induction s as [|c s [post IH]]; simpl; [by exists ""|].
  destruct (JS.trimEnd s) as [|d r] eqn:E.
  - destruct (JS.isWhiteSpace c); [by exists (String c s)|]. exists s. done.
  - exists post. by rewrite IH at 1.
Qed.

Lemma occursIn_trim (s : string) : occursIn (JS.trim s) s.
Proof.
  unfold JS.trim. destruct (trimStart_suffix s) as [pre Hpre].
  destruct (trimEnd_prefix (JS.trimStart s)) as [post Hpost].
  exists pre, post. by rewrite <- Hpost.
Qed.

(** X12: a click on a tag chip never empties the list: with the chip's tag
    as the tag filter and no text query, a template that carries the tag is
    shown. *)
Theorem tag_chip_shows_a_template (ts : list Template.t) (x : string) :
  x ∈ allTags ts →
  ∃ t, t ∈ filtered ts "" x ∧ x ∈ JS.orEmpty (Template.tags t).
Proof.
  intros (t & Hin & Hx)%elem_of_allTags. exists t. split; [|done].
  apply elem_of_filtered. split; [done|]. split; [by left|].
  right. exists x. split; [done|]. apply occursIn_trim.
Qed.

Lemma tag_chip_shows_a_template_witness :
  ∃ t, t ∈ filtered DEFAULT_TEMPLATES "" "review"
       ∧ "review" ∈ JS.orEmpty (Template.tags t).
Proof.
  apply (tag_chip_shows_a_template DEFAULT_TEMPLATES "review"). compute_done.
Defined.

Lemma lowerChar_idem (c : ascii) : JS.lowerChar (JS.lowerChar c) = JS.lowerChar c.
Proof. by destruct c as [[] [] [] [] [] [] [] []]. Qed.

Lemma toLowerCase_idem (s : string) :
  JS.toLowerCase (JS.toLowerCase s) = JS.toLowerCase s.
Proof. induction s as [|c s IH]; simpl; [done|]. by rewrite lowerChar_idem, IH. Qed.

Lemma filter_filter {A : Type} (f g : A → bool) (l : list A) :
  List.filter g (List.filter f l) = List.filter (fun x => f x && g x) l.
Proof.
  induction l as [|x l IH]; simpl; [done|].
  destruct (f x); simpl; [|done]. destruct (g x); by rewrite IH.
Qed.

(** X13: the two filters compose and do not mind case or surrounding
    white space in the queries: filtering by text and then by tag is
    filtering by both at once, and a query gives the same list lower-cased
    or trimmed. *)
Theorem filtered_compose (ts : list Template.t) (search tagFilter : string) :
  filtered (filtered ts search "") "" tagFilter = filtered ts search tagFilter
  ∧ filtered ts (JS.toLowerCase search) (JS.toLowerCase tagFilter)
    = filtered ts search tagFilter
  ∧ filtered ts (JS.trim search) (JS.trim tagFilter) = filtered ts search tagFilter.
Proof.
  split; [|split].
  - unfold filtered. rewrite filter_filter. apply filter_ext. intros t.
    change (inTag (JS.trim (JS.toLowerCase "")) t) with true.
    change (inText (JS.trim (JS.toLowerCase "")) t) with true.
    by rewrite andb_true_r.
  - unfold filtered. by rewrite !toLowerCase_idem.
  - unfold filtered. by rewrite !trim_toLowerCase, !trim_idem.
Qed.

(** ** The preview *)

Lemma trim_nonempty (c : ascii) (r : string) :
  JS.isWhiteSpace c = false → JS.trim (String c r) ≠ "".
Proof.
  intros Ec. unfold JS.trim. rewrite trimStart_keeps by done.
  by destruct (trimEnd_head c r Ec) as [r' ->].
Qed.

(** X14: the assembled prompt is empty only for the empty draft: as soon
    as the context, the task or the format is not the empty string, or
    there is a rule or an example, the preview shows text. *)
Theorem assembled_empty_iff (st : App.State) :
  App.assembled st = "" ↔
  App.context st = "" ∧ App.task st = "" ∧ App.rules st = []
  ∧ App.format st = "" ∧ App.examples st = [].
Proof.
  split.
  - unfold App.assembled, App.lines. intros Hempty.
    destruct (App.context st) as [|c1 s1]; cbn [JS.truthy app] in Hempty;
      [|by apply trim_nonempty in Hempty].
    destruct (App.task st) as [|c2 s2]; cbn [JS.truthy app] in Hempty;
      [|by apply trim_nonempty in Hempty].
    destruct (App.rules st) as [|r rs]; cbn [app] in Hempty;
      [|by apply trim_nonempty in Hempty].
    destruct (App.format st) as [|c3 s3]; cbn [JS.truthy app] in Hempty;
      [|by apply trim_nonempty in Hempty].
    destruct (App.examples st) as [|e es]; cbn [app] in Hempty;
      [done|by apply trim_nonempty in Hempty].
  - intros (Hc & Ht & Hr & Hf & He). unfold App.assembled, App.lines.
    by rewrite Hc, Ht, Hr, Hf, He.
Qed.

(** ** What the effects store is what the next visit loads *)

Lemma stringify_head (v : json) :
  plain v = true →
  ∃ c s, JSON_stringify v = String c s
         ∧ JSON.isWs c = false
         ∧ (JS.code c =? 93) = false ∧ (JS.code c =? 125) = false.
Proof. destruct v as [| [|] | l | s | xs | ms]; simpl; try done; eauto 10. Qed.

Lemma elements_parseBackCompact (rest : string) (xs : list json) :
  Forall parsesBackCompact xs → forallb plain xs = true → xs ≠ [] →
  ∀ fuel, (list_sum (map (fun x => S (size x)) xs) ≤ fuel)%nat →
  JSON.parseElements fuel
    (JS.join "," (map JSON_stringify xs) +:+ String "]" rest)
  = Ok (xs, rest).
Proof.
  intros Hall Hplain. induction xs as [|x xs IH]; [done|]. intros _ fuel Hfuel.
  apply Forall_cons in Hall as [Hx Hall].
  cbn [forallb] in Hplain. apply andb_true_iff in Hplain as [Hpx Hpxs].
  simpl in Hfuel. destruct fuel as [|f]; [lia|].
  destruct xs as [|y ys].
  - cbn [map]. rewrite join_one.
    apply parseElements_last with (w := ""); [|done].
    apply Hx; [done|]. simpl in Hfuel. lia.
  - cbn [map]. rewrite join_more, !append_assoc.
    apply parseElements_more with
      (tail := JS.join "," (map JSON_stringify (y :: ys)) +:+ String "]" rest).
    + apply (Hx Hpx _ f). lia.
    + apply IH; [done|done|done|]. lia.
Qed.

Lemma members_parseBackCompact (rest : string) (ms : list (string * json)) :
  Forall (fun m => parsesBackCompact (snd m)) ms →
  forallb (fun m => plain (snd m)) ms = true → ms ≠ [] →
  ∀ fuel, (list_sum (map (fun m => S (size (snd m))) ms) ≤ fuel)%nat →
  JSON.parseMembers fuel
    (JS.join ","
       (map (fun m => JSON.quote (fst m) +:+ ":" +:+ JSON_stringify (snd m)) ms)
     +:+ String "}" rest)
  = Ok (ms, rest).
Proof.
  intros Hall Hplain. induction ms as [|[k x] ms IH]; [done|].
  intros _ fuel Hfuel.
  apply Forall_cons in Hall as [Hx Hall]. simpl in Hx.
  cbn [forallb] in Hplain. apply andb_true_iff in Hplain as [Hpx Hpxs]. simpl in Hpx.
  simpl in Hfuel. destruct fuel as [|f]; [lia|].
  destruct ms as [|m' ms'].
  - cbn [map fst snd]. rewrite join_one, !append_assoc.
    apply parseMembers_last with (w := ""); [|done].
    apply Hx; [done|]. simpl in Hfuel. lia.
  - cbn [map fst snd]. rewrite join_more, !append_assoc.
    apply parseMembers_more with
      (tail := JS.join ","
                 (map (fun m => JSON.quote (fst m) +:+ ":" +:+ JSON_stringify (snd m))
                    (m' :: ms'))
               +:+ String "}" rest).
    + apply (Hx Hpx _ f). lia.
    + apply IH; [done|done|done|]. lia.
Qed.

Lemma parseValue_stringify (v : json) : parsesBackCompact v.
Proof.
  induction v as [| b | l | s | xs IH | ms IH] using json_nested_ind;
    intros Hplain rest fuel Hfuel;
    (destruct fuel as [|f]; [simpl in Hfuel; lia|]).
  - done.
  - by destruct b.
  - done.
  - cbn [JSON_stringify]. rewrite quote_app. simpl. by rewrite parseChars_escape.
  - destruct xs as [|x xs]; [done|].
    cbn [plain] in Hplain. cbn [JSON_stringify]. rewrite !append_assoc.
    destruct (stringify_head x) as (c & s0 & Hs & Hc & Hc1 & _).
    { cbn [forallb] in Hplain. by apply andb_true_iff in Hplain as [? _]. }
    destruct (join_head "," (JSON_stringify x) (map JSON_stringify xs)) as [more Hmore].
    apply parseValue_array with (c := c) (s := s0 +:+ more +:+ "]" +:+ rest).
    + cbn [map]. rewrite Hmore, Hs, !append_assoc. by apply skipWs_head.
    + done.
    + apply elements_parseBackCompact; [done|done|done|].
      simpl in Hfuel |- *. lia.
  - destruct ms as [|m ms]; [done|].
    cbn [plain] in Hplain. apply andb_true_iff in Hplain as [Hnd Hplain].
    apply bool_decide_eq_true in Hnd.
    cbn [JSON_stringify]. rewrite !append_assoc.
    rewrite <- (buildObject_distinct (m :: ms)) by done.
    destruct (join_head ","
                (JSON.quote (fst m) +:+ ":" +:+ JSON_stringify (snd m))
                (map (fun m => JSON.quote (fst m) +:+ ":" +:+ JSON_stringify (snd m)) ms))
      as [more Hmore].
    eapply parseValue_object.
    + cbn [map]. rewrite Hmore, !append_assoc, quote_app. by apply skipWs_head.
    + done.
    + apply members_parseBackCompact; [done|done|done|].
      simpl in Hfuel |- *. lia.
Qed.

Lemma sizes_le_join_compact {A : Type} (sz : A → nat) (pr : A → string) (sep : string)
    (xs : list A) :
  Forall (fun x => (sz x ≤ S (2 * String.length (pr x)))%nat) xs →
  (1 ≤ String.length sep)%nat →
  (list_sum (map (fun x => S (sz x)) xs)
   ≤ 2 * String.length (JS.join sep (map pr xs)) + 2)%nat.
Proof.
  intros Hall Hsep. induction Hall as [|x xs Hx Hall IH]; [simpl; lia|].
  destruct xs as [|y ys].
  - simpl. lia.
  - cbn [map]. rewrite join_more, !length_append.
    cbn [map] in IH. simpl in IH |- *. lia.
Qed.

Lemma size_le_stringify (v : json) :
  (size v ≤ S (2 * String.length (JSON_stringify v)))%nat.
Proof.
  induction v as [| b | l | s | xs IH | ms IH] using json_nested_ind;
    try (simpl; lia).
  - cbn [JSON_stringify size]. rewrite !length_append.
    pose proof (sizes_le_join_compact size JSON_stringify "," xs IH) as Hle.
    simpl in Hle |- *. lia.
  - cbn [JSON_stringify size]. rewrite !length_append.
    pose proof (sizes_le_join_compact (fun m => size (snd m))
                  (fun m => JSON.quote (fst m) +:+ ":" +:+ JSON_stringify (snd m))
                  "," ms) as Hle.
    simpl in Hle |- *.
    assert (Forall (fun m => (size (snd m) ≤ S (2 * String.length
              (JSON.quote (fst m) +:+ ":" +:+ JSON_stringify (snd m))))%nat) ms) as Hall.
    { eapply Forall_impl; [exact IH|]. intros y Hy. cbv beta in Hy |- *.
      rewrite !length_append. lia. }
    specialize (Hle Hall). lia.
Qed.

(** Parsing the compact text of a plain value gives the value back. *)
Lemma parse_stringify (v : json) :
  plain v = true → JSON.parse (JSON_stringify v) = Ok v.
Proof.
  intros Hplain. unfold JSON.parse.
  pose proof (parseValue_stringify v Hplain ""
                (S (2 * String.length (JSON_stringify v)))) as Hp.
  rewrite append_nil_r in Hp. rewrite Hp; [done|]. apply size_le_stringify.
Qed.

Lemma getItem_TEMPLATES_effects (st : App.State) (store : gmap string string) :
  Storage.getItem Storage.TEMPLATES (Storage.effects st store)
  = Some (JSON_stringify (JArr (map toJson (App.templates st)))).
Proof.
  unfold Storage.getItem, Storage.effects, Storage.setItem.
  rewrite lookup_insert_ne by done. apply lookup_insert_eq.
Qed.

Lemma getItem_LAST_effects (st : App.State) (store : gmap string string) :
  Storage.getItem Storage.LAST (Storage.effects st store)
  = Some (JSON_stringify (toJson (Storage.current st))).
Proof. unfold Storage.getItem, Storage.effects, Storage.setItem. apply lookup_insert_eq. Qed.

(** X15: the collection survives a reload: what the effect of
    [useLocalStorageTemplates] stores is what its initialiser loads on the
    next visit, the same templates in the same order, whatever else the
    store holds and whatever the draft is. *)
Theorem templates_survive_reload (st : App.State) (store : gmap string string) :
  App.useLocalStorageTemplates JSON.parse
    (Storage.getItem Storage.TEMPLATES (Storage.effects st store))
  = JArr (map toJson (App.templates st))
  ∧ map ofJson (map toJson (App.templates st)) = App.templates st.
Proof.
  split; [|apply ofJson_collection].
  rewrite getItem_TEMPLATES_effects. unfold App.useLocalStorageTemplates.
  rewrite parse_stringify by apply plain_collection. done.
Qed.

Lemma linkedId_reloaded (st : App.State) (ts : list Template.t) :
  App.linkedId (Storage.initialState ts (Some (Storage.current st))) = App.linkedId st.
Proof.
  unfold App.linkedId, Storage.current, App.activeId. simpl.
  destruct (App.active st) as [a|]; [|done].
  destruct (Template.id a) as [i|]; [|done].
  destruct i as [|c i]; [done|]. simpl. by case_bool_decide.
Qed.

(** X16: the draft survives a reload: from what the effect of [App] stores
    under the last-draft key, the next visit starts with the same name,
    tags, context, task, rules, format and examples, hence the same
    preview, and a save goes to the same id as it would have gone: the
    linked one, or a minted one for a draft that was never saved. *)
Theorem draft_survives_reload (st : App.State) (store : gmap string string)
    (ts : list Template.t) (now : N) :
  let a := Storage.initialActive JSON.parse
             (Storage.getItem Storage.LAST (Storage.effects st store)) in
  let st' := Storage.initialState ts a in
  a = Some (Storage.current st)
  ∧ (App.name st', App.tags st', App.context st', App.task st',
     App.rules st', App.format st', App.examples st')
    = (App.name st, App.tags st, App.context st, App.task st,
       App.rules st, App.format st, App.examples st)
  ∧ App.saveId now st' = App.saveId now st
  ∧ App.assembled st' = App.assembled st.
Proof.
  intros a st'.
  assert (a = Some (Storage.current st)) as Ha.
  { subst a. rewrite getItem_LAST_effects. unfold Storage.initialActive.
    rewrite parse_stringify by apply plain_toJson.
    assert (JS.truthy (JSON_stringify (toJson (Storage.current st))) = true) as ->
      by done.
    by rewrite ofJson_toJson. }
  split; [done|]. subst st'. rewrite Ha.
  assert ((App.name (Storage.initialState ts (Some (Storage.current st))),
           App.tags (Storage.initialState ts (Some (Storage.current st))),
           App.context (Storage.initialState ts (Some (Storage.current st))),
           App.task (Storage.initialState ts (Some (Storage.current st))),
           App.rules (Storage.initialState ts (Some (Storage.current st))),
           App.format (Storage.initialState ts (Some (Storage.current st))),
           App.examples (Storage.initialState ts (Some (Storage.current st))))
          = (App.name st, App.tags st, App.context st, App.task st,
             App.rules st, App.format st, App.examples st)) as Hfields.
  { simpl. by destruct (App.name st), (App.context st), (App.task st), (App.format st). }
  split; [done|]. split.
  - unfold App.saveId. by rewrite linkedId_reloaded.
  - unfold App.assembled, App.lines. simpl.
    by destruct (App.context st), (App.task st), (App.format st).
Qed.

Section FirstVisit.

Variable JSON_parse : string → result json.

(** X17: a last draft that is missing, empty, or does not parse never
    stops the start: the editor opens on an unsaved new draft with every
    field empty, the library shown, no query set. *)
Theorem broken_draft_starts_empty (raw : option string) (ts : list Template.t) :
  raw = None ∨ raw = Some "" ∨ (∃ s m, raw = Some s ∧ JSON_parse s = Throw m) →
  Storage.initialState ts (Storage.initialActive JSON_parse raw)
  = App.mkState ts None "" [] "" "" [] "" [] "" "" true.
Proof.
  intros [->|[->|(s & m & -> & Hm)]]; [done|done|].
  unfold Storage.initialActive. rewrite Hm. by destruct (JS.truthy s).
Qed.

End FirstVisit.

Lemma broken_draft_starts_empty_witness :
  Storage.initialState DEFAULT_TEMPLATES (Storage.initialActive JSON.parse (Some "{name:"))
  = App.mkState DEFAULT_TEMPLATES None "" [] "" "" [] "" [] "" "" true.
Proof.
  apply broken_draft_starts_empty. right. right.
  eexists _, _. split; [reflexivity|]. vm_compute. reflexivity.
Defined.
